(** * Flask-Trip: the trip dashboard of [src/app.py]

    A shallow embedding of the request handlers of [app.py] (the in-memory
    task and expense stores, the budget ledger and the location-suggestion
    gateway with its retry loop), and the properties of the specification
    checked against it.

    Python values are modelled as follows.
    - [str]: [string], read as a sequence of code points below 256.
    - [int]: [Z] (unbounded).
    - [float]: IEEE-754 binary64, as [spec_float] with precision 53 and
      maximal exponent 1024, with the operations of [SpecFloat].
    - [dict] records of tasks and expenses: records with the dictionary keys
      as fields.
    - [request.form]: an association list (first value of a key wins).
    - exceptions: a result type with an explicit [Raise] case. *)

From Stdlib Require Import ZArith NArith List String Ascii Bool Lia.
From Stdlib Require Import Floats.SpecFloat.
From Stdlib Require Import DecimalString DecimalN DecimalZ DecimalPos DecimalFacts.
Import ListNotations.

Open Scope string_scope.
Open Scope Z_scope.

(** ** Strings *)

Module PyStr.

(** [str.isspace] for one code point below 256: TAB..CR, FS..US, SPACE,
    NEL and NBSP. *)
Definition is_space (c : ascii) : bool :=
  let n := N_of_ascii c in
  (((9 <=? n) && (n <=? 13)) || ((28 <=? n) && (n <=? 32))
   || (n =? 133) || (n =? 160))%N.

Fixpoint lstrip (s : string) : string :=
  match s with
  | String c s' => if is_space c then lstrip s' else s
  | EmptyString => EmptyString
  end.

Fixpoint rstrip (s : string) : string :=
  match s with
  | String c s' =>
      match rstrip s' with
      | EmptyString => if is_space c then EmptyString else String c EmptyString
      | r => String c r
      end
  | EmptyString => EmptyString
  end.

(** [s.strip()] *)
Definition strip (s : string) : string := rstrip (lstrip s).

(** Truth value of a string in a condition: [if s:]. *)
Definition truthy (s : string) : bool :=
  match s with
  | EmptyString => false
  | String _ _ => true
  end.

Definition is_digit (c : ascii) : bool :=
  let n := N_of_ascii c in ((48 <=? n) && (n <=? 57))%N.

Definition digit_val (c : ascii) : N := (N_of_ascii c - 48)%N.

Definition digit_char (d : Z) : ascii := ascii_of_N (48 + Z.to_N d).

(** ASCII lower-casing of one character and of a string. *)
Definition lower_char (c : ascii) : ascii :=
  let n := N_of_ascii c in
  if ((65 <=? n) && (n <=? 90))%N then ascii_of_N (n + 32) else c.

Fixpoint lower (s : string) : string :=
  match s with
  | String c s' => String (lower_char c) (lower s')
  | EmptyString => EmptyString
  end.

(** [str(n)] for an [int]. *)
Definition str (n : Z) : string := NilZero.string_of_int (Z.to_int n).

End PyStr.

(** ** Floats *)

Module PyFloat.
Import PyStr.

Definition prec : Z := 53.
Definition emax : Z := 1024.

Definition float : Type := spec_float.

Definition add : float -> float -> float := SFadd prec emax.
Definition sub : float -> float -> float := SFsub prec emax.
Definition mul : float -> float -> float := SFmul prec emax.

(** [x >= y] and [x < y]; both are false when an operand is a NaN. *)
Definition ge (x y : float) : bool := SFleb y x.
Definition lt (x y : float) : bool := SFltb x y.

(** [float(n)] for an [int] [n]. *)
Definition of_int (n : Z) : float := binary_normalize prec emax n 0 false.

(** The binary64 value nearest to [(-1)^neg * m * 10^e] (ties to even; an
    overflow gives an infinity): the value the decimal numeral denotes, as a
    correctly rounded conversion returns it. *)
Definition of_decimal (neg : bool) (m : N) (e : Z) : float :=
  match m with
  | N0 => S754_zero neg
  | Npos p =>
      let num := Zpos p * 10 ^ Z.max e 0 in
      let den := 10 ^ Z.max (- e) 0 in
      let '(q, e', l) := SFdiv_core_binary prec emax num 0 den 0 in
      binary_round_aux prec emax neg q e' l
  end.

(** *** [float(s)] for a string

    As CPython does it: surrounding whitespace is stripped; underscores are
    removed, each of which must stand between two digits; then the text is
    an optional sign followed by [inf], [infinity] or [nan] in any case, or a
    decimal numeral with an optional fraction and exponent. Anything else
    raises [ValueError] ([None]). *)

Fixpoint drop_underscores (prev : option ascii) (s : string) : option string :=
  match s with
  | EmptyString =>
      match prev with
      | Some "_"%char => None
      | _ => Some EmptyString
      end
  | String c s' =>
      if Ascii.eqb c "_" then
        match prev with
        | Some p => if is_digit p then drop_underscores (Some c) s' else None
        | None => None
        end
      else
        match prev with
        | Some "_"%char =>
            if is_digit c
            then option_map (String c) (drop_underscores (Some c) s')
            else None
        | _ => option_map (String c) (drop_underscores (Some c) s')
        end
  end.

Definition read_sign (s : string) : bool * string :=
  match s with
  | String "-" s' => (true, s')
  | String "+" s' => (false, s')
  | _ => (false, s)
  end.

(** Reads a maximal run of digits: the value read (continuing [acc]), the
    number of digits and the rest of the text. *)
Fixpoint read_digits (acc : N) (n : nat) (s : string) : N * nat * string :=
  match s with
  | String c s' =>
      if is_digit c
      then read_digits (10 * acc + digit_val c)%N (S n) s'
      else (acc, n, s)
  | EmptyString => (acc, n, s)
  end.

(** The exponent part: empty, or [e] or [E], an optional sign and at least
    one digit, up to the end of the text. *)
Definition read_exponent (s : string) : option Z :=
  match s with
  | EmptyString => Some 0
  | String c s1 =>
      if Ascii.eqb (lower_char c) "e" then
        let '(eneg, s2) := read_sign s1 in
        let '(ev, ne, s3) := read_digits 0 0 s2 in
        match ne, s3 with
        | S _, EmptyString => Some (if eneg then - Z.of_N ev else Z.of_N ev)
        | _, _ => None
        end
      else None
  end.

(** An unsigned decimal numeral: digits, an optional point and digits (at
    least one digit in all), an optional exponent. The result is a mantissa
    and a power of ten. *)
Definition read_numeral (s : string) : option (N * Z) :=
  let '(ip, ni, s1) := read_digits 0 0 s in
  let '(m, nf, s2) :=
    match s1 with
    | String "." s1' => read_digits ip 0 s1'
    | _ => (ip, 0%nat, s1)
    end in
  match (ni + nf)%nat with
  | O => None
  | S _ =>
      match read_exponent s2 with
      | Some ex => Some (m, ex - Z.of_nat nf)
      | None => None
      end
  end.

Definition of_string (s : string) : option float :=
  match drop_underscores None (strip s) with
  | None => None
  | Some t =>
      let '(neg, u) := read_sign t in
      let l := lower u in
      if String.eqb l "inf" || String.eqb l "infinity" then Some (S754_infinity neg)
      else if String.eqb l "nan" then Some S754_nan
      else
        match read_numeral u with
        | Some (m, e) => Some (of_decimal neg m e)
        | None => None
        end
  end.

(** *** [f"{x:.2f}"]

    [cents m e] is the integer nearest to [m * 2^e * 100], ties to even: the
    digits of the value printed with two decimals. *)
Definition cents (m : positive) (e : Z) : Z :=
  match e with
  | Zneg p =>
      let d := 2 ^ Zpos p in
      let q := (100 * Zpos m) / d in
      let r := (100 * Zpos m) mod d in
      match 2 * r ?= d with
      | Lt => q
      | Gt => q + 1
      | Eq => if Z.even q then q else q + 1
      end
  | _ => 100 * Zpos m * 2 ^ e
  end.

Definition sign_string (neg : bool) : string := if neg then "-" else "".

(** A count [c] of hundredths printed as [units.dd]. *)
Definition fixed2 (c : Z) : string :=
  str (c / 100) ++ "." ++
  String (digit_char ((c mod 100) / 10)) (String (digit_char (c mod 10)) "").

Definition format_2f (x : float) : string :=
  match x with
  | S754_nan => "nan"
  | S754_infinity s => sign_string s ++ "inf"
  | S754_zero s => sign_string s ++ "0.00"
  | S754_finite s m e => sign_string s ++ fixed2 (cents m e)
  end.

(** *** Notions of the specification

    A value is finite when it is neither an infinity nor a NaN. *)
Definition is_finite (x : float) : bool :=
  match x with
  | S754_zero _ | S754_finite _ _ _ => true
  | S754_infinity _ | S754_nan => false
  end.

(** "Rounded to 2 decimals": the binary64 value nearest to [k/100], where
    [k] is the integer nearest to a hundred times the value (ties to even).
    Zeros, infinities and NaN are left as they are. *)
Definition round_2_decimals (x : float) : float :=
  match x with
  | S754_finite s m e => of_decimal s (Z.to_N (cents m e)) (-2)
  | _ => x
  end.

(** "A string with exactly two decimal digits": an optional minus sign, at
    least one digit, a point, two digits, and nothing more. *)
Definition two_decimals (s : string) : bool :=
  let s0 := match s with String "-" r => r | _ => s end in
  let '(_, n, rest) := read_digits 0 0 s0 in
  match n, rest with
  | S _, String "." (String a (String b EmptyString)) => is_digit a && is_digit b
  | _, _ => false
  end.

End PyFloat.

(** ** Requests, responses and exceptions *)

Module Http.

(** [request.form]: the submitted fields in order; [get] returns the first
    value of a key. *)
Definition form : Type := list (string * string).

Fixpoint form_lookup (f : form) (key : string) : option string :=
  match f with
  | (k, v) :: f' => if String.eqb k key then Some v else form_lookup f' key
  | [] => None
  end.

(** [request.form.get(key, default)] *)
Definition form_get (f : form) (key default : string) : string :=
  match form_lookup f key with
  | Some v => v
  | None => default
  end.

(** What a handler may raise. *)
Inductive exn : Type :=
  | ValueError
  | JSONDecodeError
  | OtherException.

Inductive result (A : Type) : Type :=
  | Ok (a : A)
  | Raise (e : exn).
Arguments Ok {A} a.
Arguments Raise {A} e.

Definition bind {A B : Type} (r : result A) (k : A -> result B) : result B :=
  match r with
  | Ok a => k a
  | Raise e => Raise e
  end.

Notation "x <- r ;; k" := (bind r (fun x => k))
  (at level 61, r at next level, right associativity).
Notation "' p <- r ;; k" := (bind r (fun x => let p := x in k))
  (at level 61, p pattern, r at next level, right associativity).

End Http.

Import PyStr PyFloat Http.

(** ** The stores: module-level state of [app.py] *)

Record task : Type := mk_task {
  task_id : string;
  text : string;
  location : string
}.

Record expense : Type := mk_expense {
  expense_id : string;
  description : string;
  amount : string;
  category : string
}.

Record state : Type := mk_state {
  tasks : list task;
  task_id_counter : Z;
  expenses : list expense;
  expense_id_counter : Z;
  total_trip_budget : float
}.

(** The state when the process starts. *)
Definition init : state :=
  {| tasks := [];
     task_id_counter := 1;
     expenses := [];
     expense_id_counter := 1;
     total_trip_budget := of_decimal false 0 (-2) |}.

(** What a store handler answers: every one of them ends in
    [redirect(url_for('index'))]. *)
Inductive reply : Type :=
  | Redirect (endpoint : string).

(** *** [set_budget] *)

Definition set_budget (f : form) (st : state) : reply * state :=
  let budget_str := strip (form_get f "total-budget-input" "0.00") in
  let st' :=
    match of_string budget_str with
    | Some new_budget =>
        if ge new_budget (of_int 0) then
          match of_string (format_2f new_budget) with
          | Some b =>
              {| tasks := tasks st;
                 task_id_counter := task_id_counter st;
                 expenses := expenses st;
                 expense_id_counter := expense_id_counter st;
                 total_trip_budget := b |}
          | None => st
          end
        else st
    | None => st
    end in
  (Redirect "index", st').

(** *** [add_task] and [delete_task] *)

(** The dictionary [new_task] built when the text is not empty. *)
Definition new_task (f : form) (st : state) : option task :=
  let task_text := strip (form_get f "task-input" "") in
  let location_text := strip (form_get f "location-input" "") in
  if truthy task_text then
    Some {| task_id := str (task_id_counter st);
            text := task_text;
            location := location_text |}
  else None.

Definition add_task (f : form) (st : state) : reply * state :=
  let st' :=
    match new_task f st with
    | Some t =>
        {| tasks := t :: tasks st;
           task_id_counter := task_id_counter st + 1;
           expenses := expenses st;
           expense_id_counter := expense_id_counter st;
           total_trip_budget := total_trip_budget st |}
    | None => st
    end in
  (Redirect "index", st').

Definition delete_task (id : string) (st : state) : reply * state :=
  (Redirect "index",
   {| tasks := filter (fun t => negb (String.eqb (task_id t) id)) (tasks st);
      task_id_counter := task_id_counter st;
      expenses := expenses st;
      expense_id_counter := expense_id_counter st;
      total_trip_budget := total_trip_budget st |}).

(** *** [add_expense] and [delete_expense] *)

(** The dictionary [new_expense] built when the amount parses, is not below
    zero and the description is not empty. *)
Definition new_expense (f : form) (st : state) : option expense :=
  let description := strip (form_get f "expense-description" "") in
  let amount_str := strip (form_get f "expense-amount" "") in
  let category := strip (form_get f "expense-category" "Other") in
  match of_string amount_str with
  | None => None
  | Some amount_float =>
      if truthy description && ge amount_float (of_int 0) then
        Some {| expense_id := str (expense_id_counter st);
                description := description;
                amount := format_2f amount_float;
                category := category |}
      else None
  end.

Definition add_expense (f : form) (st : state) : reply * state :=
  let st' :=
    match new_expense f st with
    | Some e =>
        {| tasks := tasks st;
           task_id_counter := task_id_counter st;
           expenses := e :: expenses st;
           expense_id_counter := expense_id_counter st + 1;
           total_trip_budget := total_trip_budget st |}
    | None => st
    end in
  (Redirect "index", st').

Definition delete_expense (id : string) (st : state) : reply * state :=
  (Redirect "index",
   {| tasks := tasks st;
      task_id_counter := task_id_counter st;
      expenses := filter (fun e => negb (String.eqb (expense_id e) id)) (expenses st);
      expense_id_counter := expense_id_counter st;
      total_trip_budget := total_trip_budget st |}).

(** *** [index]: the derived budget figures *)

(** [float(e.get('amount', '0.00'))] for each expense in turn; the first
    amount that does not parse raises [ValueError]. *)
Fixpoint amounts (es : list expense) : result (list float) :=
  match es with
  | [] => Ok []
  | e :: es' =>
      match of_string (amount e) with
      | Some x => xs <- amounts es' ;; Ok (x :: xs)
      | None => Raise ValueError
      end
  end.

(** [sum(xs)]: the items added from the left to the start value [0], each
    addition rounded to binary64. *)
Definition sum (xs : list float) : float := fold_left add xs (of_int 0).

(** The values [index] hands to the page template. *)
Record page : Type := mk_page {
  page_tasks : list task;
  page_expenses : list expense;
  total_expenses : float;
  page_total_trip_budget : float;
  remaining_budget : float
}.

Definition index (st : state) : result page :=
  xs <- amounts (expenses st) ;;
  let total := sum xs in
  Ok {| page_tasks := tasks st;
        page_expenses := expenses st;
        total_expenses := total;
        page_total_trip_budget := total_trip_budget st;
        remaining_budget := sub (total_trip_budget st) total |}.

(** ** JSON values *)

(** What [json.loads] returns and [jsonify] serialises: [None], [bool],
    [int], [float], [str], [list] and [dict] with string keys. *)
#[local] Set Warnings "-register-all".
Inductive json : Type :=
  | JNull
  | JBool (b : bool)
  | JInt (n : Z)
  | JFloat (x : float)
  | JStr (s : string)
  | JArr (items : list json)
  | JObj (fields : list (string * json)).

Fixpoint dict_lookup (fields : list (string * json)) (key : string) : option json :=
  match fields with
  | (k, v) :: fields' => if String.eqb k key then Some v else dict_lookup fields' key
  | [] => None
  end.

(** [v.get(key, default)]: only a [dict] has the method. *)
Definition py_get (v : json) (key : string) (default : json) : result json :=
  match v with
  | JObj fields =>
      match dict_lookup fields key with
      | Some x => Ok x
      | None => Ok default
      end
  | _ => Raise OtherException
  end.

(** [v[0]]: the first item of a list, the first character of a string;
    [IndexError], [KeyError] or [TypeError] otherwise. *)
Definition py_item0 (v : json) : result json :=
  match v with
  | JArr (x :: _) => Ok x
  | JStr (String c _) => Ok (JStr (String c EmptyString))
  | _ => Raise OtherException
  end.

(** ** [json.loads]

    The decoder of the standard library in its default configuration
    (strict strings, [NaN] and the infinities accepted). Two limits of this
    model: an escape [\uXXXX] of a code point from 256 on denotes a
    character that [string] does not have, and is reported as
    [OtherException]; the interpreter's recursion limit is replaced by a
    fuel that grows with the text. The limit some interpreter versions put
    on the digits of an integer literal is not modelled either. The
    theorems on the gateway take the decoder as a variable; this decoder
    serves the examples, whose texts stay clear of these limits. *)

Module JsonLoads.

(** The double quote. *)
Definition quote : ascii := ascii_of_N 34.

Definition is_ws (c : ascii) : bool :=
  let n := N_of_ascii c in ((n =? 32) || (n =? 9) || (n =? 10) || (n =? 13))%N.

Fixpoint skip_ws (s : string) : string :=
  match s with
  | String c s' => if is_ws c then skip_ws s' else s
  | EmptyString => EmptyString
  end.

(** [strip_prefix p s] is the rest of [s] after [p], when [s] starts with [p]. *)
Fixpoint strip_prefix (p s : string) : option string :=
  match p, s with
  | EmptyString, _ => Some s
  | String a p', String b s' => if Ascii.eqb a b then strip_prefix p' s' else None
  | String _ _, EmptyString => None
  end.

(** The longest run of digits at the start of the text, and the rest. *)
Fixpoint span_digits (s : string) : string * string :=
  match s with
  | String c s' =>
      if is_digit c
      then let '(ds, rest) := span_digits s' in (String c ds, rest)
      else (EmptyString, s)
  | EmptyString => (EmptyString, EmptyString)
  end.

Definition hex_val (c : ascii) : option N :=
  let n := N_of_ascii c in
  if ((48 <=? n) && (n <=? 57))%N then Some (n - 48)%N
  else if ((97 <=? n) && (n <=? 102))%N then Some (n - 87)%N
  else if ((65 <=? n) && (n <=? 70))%N then Some (n - 55)%N
  else None.

Definition hex4 (a b c d : ascii) : option N :=
  match hex_val a, hex_val b, hex_val c, hex_val d with
  | Some x, Some y, Some z, Some w => Some (((x * 16 + y) * 16 + z) * 16 + w)%N
  | _, _, _, _ => None
  end.

(** The character a one-letter escape stands for. *)
Definition escape_char (c : ascii) : option ascii :=
  match c with
  | "034"%char => Some quote
  | "\"%char => Some "\"%char
  | "/"%char => Some "/"%char
  | "b"%char => Some (ascii_of_N 8)
  | "f"%char => Some (ascii_of_N 12)
  | "n"%char => Some (ascii_of_N 10)
  | "r"%char => Some (ascii_of_N 13)
  | "t"%char => Some (ascii_of_N 9)
  | _ => None
  end.

Definition cons_char (c : ascii) (r : result (string * string)) : result (string * string) :=
  '(t, rest) <- r ;; Ok (String c t, rest).

(** A string literal after its opening quote: the decoded text and what
    follows the closing quote. *)
Fixpoint scan_string (s : string) : result (string * string) :=
  match s with
  | EmptyString => Raise JSONDecodeError
  | String c s' =>
      if Ascii.eqb c quote then Ok (EmptyString, s')
      else if Ascii.eqb c "\" then
        match s' with
        | String "u" (String h1 (String h2 (String h3 (String h4 s'')))) =>
            match hex4 h1 h2 h3 h4 with
            | Some n =>
                if (n <? 256)%N then cons_char (ascii_of_N n) (scan_string s'')
                else Raise OtherException
            | None => Raise JSONDecodeError
            end
        | String e s'' =>
            match escape_char e with
            | Some x => cons_char x (scan_string s'')
            | None => Raise JSONDecodeError
            end
        | EmptyString => Raise JSONDecodeError
        end
      else if (N_of_ascii c <? 32)%N then Raise JSONDecodeError
      else cons_char c (scan_string s')
  end.

(** A number literal: an optional minus sign; a zero, or digits that do
    not start with a zero; optionally a point and digits; optionally [e] or
    [E], a sign and digits. Without fraction and exponent it is an [int],
    otherwise the [float] of the matched text. *)
Definition scan_number (s : string) : option (json * string) :=
  let '(sign, s0) :=
    match s with
    | String "-" r => ("-", r)
    | _ => ("", s)
    end in
  let int_part :=
    match s0 with
    | String c r =>
        if Ascii.eqb c "0" then Some ("0", r)
        else if is_digit c then Some (span_digits s0)
        else None
    | EmptyString => None
    end in
  match int_part with
  | None => None
  | Some (ip, s1) =>
      let '(frac, s2) :=
        match s1 with
        | String "." r =>
            match span_digits r with
            | (EmptyString, _) => ("", s1)
            | (ds, r') => (String "." ds, r')
            end
        | _ => ("", s1)
        end in
      let '(expo, s3) :=
        match s2 with
        | String c r =>
            if Ascii.eqb (lower_char c) "e" then
              let '(sg, r1) :=
                match r with
                | String "-" r0 => ("-", r0)
                | String "+" r0 => ("+", r0)
                | _ => ("", r)
                end in
              match span_digits r1 with
              | (EmptyString, _) => ("", s2)
              | (ds, r') => (String c (sg ++ ds), r')
              end
            else ("", s2)
        | EmptyString => ("", s2)
        end in
      match frac, expo with
      | EmptyString, EmptyString =>
          let '(n, _, _) := read_digits 0 0 ip in
          Some (JInt (if String.eqb sign "-" then - Z.of_N n else Z.of_N n), s3)
      | _, _ =>
          match of_string (sign ++ ip ++ frac ++ expo) with
          | Some x => Some (JFloat x, s3)
          | None => None
          end
      end
  end.

(** [d[k] = v] on the fields read so far: a key that is there keeps its
    place and takes the new value. *)
Fixpoint dict_set (fields : list (string * json)) (k : string) (v : json)
  : list (string * json) :=
  match fields with
  | (k', v') :: fields' =>
      if String.eqb k' k then (k, v) :: fields' else (k', v') :: dict_set fields' k v
  | [] => [(k, v)]
  end.

(** The scanner. [scan_items] and [scan_fields] start at a member, after
    the opening bracket or a comma and the whitespace behind it. *)
Fixpoint scan_value (fuel : nat) (s : string) : result (json * string) :=
  match fuel with
  | O => Raise OtherException
  | S fuel' =>
      match s with
      | EmptyString => Raise JSONDecodeError
      | String c r =>
          if Ascii.eqb c quote then
            '(t, rest) <- scan_string r ;; Ok (JStr t, rest)
          else if Ascii.eqb c "[" then
            match skip_ws r with
            | String "]" rest => Ok (JArr [], rest)
            | r' => '(items, rest) <- scan_items fuel' r' [] ;; Ok (JArr items, rest)
            end
          else if Ascii.eqb c "{" then
            match skip_ws r with
            | String "}" rest => Ok (JObj [], rest)
            | r' => '(fields, rest) <- scan_fields fuel' r' [] ;; Ok (JObj fields, rest)
            end
          else
            match strip_prefix "null" s, strip_prefix "true" s, strip_prefix "false" s with
            | Some rest, _, _ => Ok (JNull, rest)
            | _, Some rest, _ => Ok (JBool true, rest)
            | _, _, Some rest => Ok (JBool false, rest)
            | None, None, None =>
                match scan_number s with
                | Some v => Ok v
                | None =>
                    match strip_prefix "NaN" s, strip_prefix "Infinity" s,
                          strip_prefix "-Infinity" s with
                    | Some rest, _, _ => Ok (JFloat S754_nan, rest)
                    | _, Some rest, _ => Ok (JFloat (S754_infinity false), rest)
                    | _, _, Some rest => Ok (JFloat (S754_infinity true), rest)
                    | None, None, None => Raise JSONDecodeError
                    end
                end
            end
      end
  end
with scan_items (fuel : nat) (s : string) (acc : list json)
  : result (list json * string) :=
  match fuel with
  | O => Raise OtherException
  | S fuel' =>
      '(v, r) <- scan_value fuel' s ;;
      match skip_ws r with
      | String "]" rest => Ok ((acc ++ [v])%list, rest)
      | String "," r' => scan_items fuel' (skip_ws r') (acc ++ [v])%list
      | _ => Raise JSONDecodeError
      end
  end
with scan_fields (fuel : nat) (s : string) (acc : list (string * json))
  : result (list (string * json) * string) :=
  match fuel with
  | O => Raise OtherException
  | S fuel' =>
      match s with
      | String c r =>
          if Ascii.eqb c quote then
            '(k, r1) <- scan_string r ;;
            match skip_ws r1 with
            | String ":" r2 =>
                '(v, r3) <- scan_value fuel' (skip_ws r2) ;;
                match skip_ws r3 with
                | String "}" rest => Ok (dict_set acc k v, rest)
                | String "," r4 => scan_fields fuel' (skip_ws r4) (dict_set acc k v)
                | _ => Raise JSONDecodeError
                end
            | _ => Raise JSONDecodeError
            end
          else Raise JSONDecodeError
      | EmptyString => Raise JSONDecodeError
      end
  end.

Definition loads (s : string) : result json :=
  '(v, rest) <- scan_value (2 * String.length s + 2) (skip_ws s) ;;
  match skip_ws rest with
  | EmptyString => Ok v
  | String _ _ => Raise JSONDecodeError
  end.

End JsonLoads.

(** ** The suggestion gateway: [get_suggestions] *)

Module Gateway.

Record http_response : Type := mk_response {
  status_code : Z;
  body : string
}.

(** One call of [requests.post]: it raises, or returns a response. *)
Inductive post_result : Type :=
  | PostRaises
  | PostReturns (r : http_response).

Inductive message : Type :=
  | ParseErrorMsg (json_text_head : string)
  | ApiErrorMsg (status : Z) (response_text : string)
  | UnexpectedErrorMsg.

(** What the handler does besides answering, in order. *)
Inductive event : Type :=
  | Post (attempt : nat)
  | Sleep (seconds : float)
  | Print (m : message).

(** A computation that leaves a trace of events and returns or raises. *)
Definition io (A : Type) : Type := list event * result A.

Definition ret {A : Type} (a : A) : io A := ([], Ok a).
Definition throw {A : Type} (e : exn) : io A := ([], Raise e).
Definition lift {A : Type} (r : result A) : io A := ([], r).
Definition emit (ev : event) : io unit := ([ev], Ok tt).

Definition iobind {A B : Type} (m : io A) (k : A -> io B) : io B :=
  match m with
  | (tr, Ok a) => let '(tr', r) := k a in ((tr ++ tr')%list, r)
  | (tr, Raise e) => (tr, Raise e)
  end.

Definition try_except {A : Type} (m : io A) (handler : exn -> io A) : io A :=
  match m with
  | (tr, Raise e) => let '(tr', r) := handler e in ((tr ++ tr')%list, r)
  | (tr, Ok a) => (tr, Ok a)
  end.

Notation "x <~ m ;; k" := (iobind m (fun x => k))
  (at level 61, m at next level, right associativity).
Notation "m ;;; k" := (iobind m (fun _ => k))
  (at level 61, right associativity).

(** What the handler answers: [jsonify(v)], or the server's error page when
    an exception leaves the handler. *)
Inductive response : Type :=
  | JsonResponse (v : json)
  | InternalServerError.

Definition max_retries : nat := 3.

Definition retry_statuses : list Z := [429; 500; 503].

(** [status in [429, 500, 503]] *)
Definition retryable (status : Z) : bool := existsb (Z.eqb status) retry_statuses.

(** [data.get('query', '').strip()] on the request's JSON body. *)
Definition request_query (data : json) : result string :=
  q <- py_get data "query" (JStr "") ;;
  match q with
  | JStr s => Ok (strip s)
  | _ => Raise OtherException
  end.

(** [result.get('candidates', [{}])[0].get('content', {})
           .get('parts', [{}])[0].get('text', '{}')] *)
Definition extract_text (result : json) : Http.result json :=
  candidates <- py_get result "candidates" (JArr [JObj []]) ;;
  candidate <- py_item0 candidates ;;
  content <- py_get candidate "content" (JObj []) ;;
  parts <- py_get content "parts" (JArr [JObj []]) ;;
  part <- py_item0 parts ;;
  py_get part "text" (JStr "{}").

Section Handler.

(** [json.loads], and the backend: the outcome of the [k]-th call of
    [requests.post] made by one request (counted from 0). *)
Variable loads : string -> result json.
Variable post : nat -> post_result.

Definition requests_post (k : nat) : io http_response :=
  emit (Post k) ;;;
  match post k with
  | PostReturns r => ret r
  | PostRaises => throw OtherException
  end.

(** The branch for status 200. [response.json()] and the extraction are
    outside the inner [try]; only [json.loads(json_text)] is inside it, and
    only [JSONDecodeError] is caught there. *)
Definition on_200 (r : http_response) : io json :=
  result <~ lift (loads (body r)) ;;
  json_text <~ lift (extract_text result) ;;
  match json_text with
  | JStr t =>
      match loads t with
      | Ok suggestions => ret suggestions
      | Raise JSONDecodeError =>
          emit (Print (ParseErrorMsg (substring 0 200 t))) ;;; ret (JArr [])
      | Raise e => throw e
      end
  | _ => throw OtherException
  end.

(** The loop [for i in range(max_retries)], run over the indices left, and
    the [return jsonify([])] after it. *)
Fixpoint attempts (indices : list nat) (delay : float) : io json :=
  match indices with
  | [] => ret (JArr [])
  | i :: indices' =>
      r <~ requests_post i ;;
      if status_code r =? 200 then on_200 r
      else if retryable (status_code r) && (i <? max_retries - 1)%nat then
        emit (Sleep delay) ;;; attempts indices' (mul delay (of_int 2))
      else
        emit (Print (ApiErrorMsg (status_code r) (body r))) ;;; ret (JArr [])
  end.

Definition get_suggestions (data : json) : list event * response :=
  match request_query data with
  | Raise _ => ([], InternalServerError)
  | Ok query =>
      if (String.length query <? 3)%nat then ([], JsonResponse (JArr []))
      else
        match
          try_except
            (attempts (seq 0 max_retries) (of_decimal false 10 (-1)))
            (fun _ => emit (Print UnexpectedErrorMsg) ;;; ret (JArr []))
        with
        | (tr, Ok v) => (tr, JsonResponse v)
        | (tr, Raise _) => (tr, InternalServerError)
        end
  end.

(** The text payload of a response, as [on_200] extracts it. *)
Definition payload (r : http_response) : result json :=
  result <- loads (body r) ;; extract_text result.

End Handler.

(** *** Reading a trace *)

Definition is_post (ev : event) : bool :=
  match ev with
  | Post _ => true
  | _ => false
  end.

Definition is_print (ev : event) : bool :=
  match ev with
  | Print _ => true
  | _ => false
  end.

(** The number of request attempts in a trace. *)
Definition posts (tr : list event) : nat := List.length (filter is_post tr).

(** The attempts and waits of a trace, without the log lines. *)
Definition without_prints (tr : list event) : list event :=
  filter (fun ev => negb (is_print ev)) tr.

(** The longest course a call can take: three attempts, with waits of 1.0
    and 2.0 seconds between them. *)
Definition full_course : list event :=
  [Post 0; Sleep (of_decimal false 10 (-1)); Post 1;
   Sleep (of_decimal false 20 (-1)); Post 2].

(** Texts of the examples are written with apostrophes where JSON has
    double quotes. *)
Fixpoint requote (s : string) : string :=
  match s with
  | String c s' =>
      String (if Ascii.eqb c "'" then JsonLoads.quote else c) (requote s')
  | EmptyString => EmptyString
  end.

(** *** Backends of the examples *)

Definition busy_response : http_response :=
  {| status_code := 503; body := "Service Unavailable" |}.

Definition cafe_response : http_response :=
  {| status_code := 200;
     body := requote
       "{'candidates': [{'content': {'parts': [{'text': '[{\'name\': \'Cafe Uno\', \'address\': \'1 Main St\', \'latitude\': 40.5, \'longitude\': -74.25}]'}]}}]}" |}.

(** The array the text payload of [cafe_response] denotes. *)
Definition cafe_suggestions : json :=
  JArr [JObj [("name", JStr "Cafe Uno"); ("address", JStr "1 Main St");
              ("latitude", JFloat (of_decimal false 405 (-1)));
              ("longitude", JFloat (of_decimal true 7425 (-2)))]].

(** Status 503 twice, then 200 with a valid payload. *)
Definition backend_503_503_200 (k : nat) : post_result :=
  match k with
  | 0%nat | 1%nat => PostReturns busy_response
  | _ => PostReturns cafe_response
  end.

(** Status 503 every time. *)
Definition backend_503 (k : nat) : post_result := PostReturns busy_response.

(** Status 200 with a text payload that is a JSON object, not an array. *)
Definition single_object_response : http_response :=
  {| status_code := 200;
     body := requote
       "{'candidates': [{'content': {'parts': [{'text': '{\'name\': \'Cafe Uno\'}'}]}}]}" |}.

Definition backend_single_object (k : nat) : post_result :=
  PostReturns single_object_response.

(** Status 200 with a text payload that is not JSON. *)
Definition backend_not_json (k : nat) : post_result :=
  PostReturns
    {| status_code := 200;
       body := requote
         "{'candidates': [{'content': {'parts': [{'text': 'Sorry, no results'}]}}]}" |}.

End Gateway.

(** ** Runs of requests against the stores *)

Inductive request : Type :=
  | SetBudget (f : form)
  | AddTask (f : form)
  | DeleteTask (id : string)
  | AddExpense (f : form)
  | DeleteExpense (id : string).

Definition handle (r : request) (st : state) : reply * state :=
  match r with
  | SetBudget f => set_budget f st
  | AddTask f => add_task f st
  | DeleteTask id => delete_task id st
  | AddExpense f => add_expense f st
  | DeleteExpense id => delete_expense id st
  end.

Fixpoint run (rs : list request) (st : state) : state :=
  match rs with
  | [] => st
  | r :: rs' => run rs' (snd (handle r st))
  end.

(** The ids handed out during a run, oldest first. *)
Definition issued_task_id (r : request) (st : state) : list string :=
  match r with
  | AddTask f =>
      match new_task f st with
      | Some t => [task_id t]
      | None => []
      end
  | _ => []
  end.

Definition issued_expense_id (r : request) (st : state) : list string :=
  match r with
  | AddExpense f =>
      match new_expense f st with
      | Some e => [expense_id e]
      | None => []
      end
  | _ => []
  end.

Fixpoint issued_task_ids (rs : list request) (st : state) : list string :=
  match rs with
  | [] => []
  | r :: rs' => (issued_task_id r st ++ issued_task_ids rs' (snd (handle r st)))%list
  end.

Fixpoint issued_expense_ids (rs : list request) (st : state) : list string :=
  match rs with
  | [] => []
  | r :: rs' => (issued_expense_id r st ++ issued_expense_ids rs' (snd (handle r st)))%list
  end.

(** An amount as [add_expense] stores it: the two-decimal text of some
    value that is not below zero. *)
Definition stored_amount (e : expense) : Prop :=
  exists x, ge x (of_int 0) = true /\ amount e = format_2f x.

(** ** Further notions of the stores and the gateway *)

(** The store a request works on. *)
Inductive store : Type :=
  | TaskStore
  | ExpenseStore
  | BudgetLedger.

Definition store_of (r : request) : store :=
  match r with
  | SetBudget _ => BudgetLedger
  | AddTask _ | DeleteTask _ => TaskStore
  | AddExpense _ | DeleteExpense _ => ExpenseStore
  end.

(** The [n] numbers from [c] on. *)
Fixpoint count_from (c : Z) (n : nat) : list Z :=
  match n with
  | O => []
  | S n' => c :: count_from (c + 1) n'
  end.

(** A task as [add_task] stores it: the text is not empty, and text and
    location carry no whitespace at either end. *)
Definition stored_task (t : task) : Prop :=
  truthy (text t) = true /\ strip (text t) = text t /\
  strip (location t) = location t.

(** An expense as [add_expense] stores it: the description is not empty,
    description and category carry no whitespace at either end, and the
    amount reads back as a value that is not below zero. *)
Definition stored_expense (e : expense) : Prop :=
  truthy (description e) = true /\ strip (description e) = description e /\
  strip (category e) = category e /\
  exists x, of_string (amount e) = Some x /\ ge x (of_int 0) = true.

Module GatewayCases.
Import Gateway.


(** The number of log lines in a trace. *)
Definition prints (tr : list event) : nat := List.length (filter is_print tr).


(** Status 200 without candidates: the prompt was blocked. *)
Definition blocked_response : http_response :=
  {| status_code := 200;
     body := requote "{'promptFeedback': {'blockReason': 'SAFETY'}}" |}.

Definition backend_blocked (k : nat) : post_result := PostReturns blocked_response.

(** Status 200 with an empty list of candidates. *)
Definition no_candidates_response : http_response :=
  {| status_code := 200; body := requote "{'candidates': []}" |}.

Definition backend_no_candidates (k : nat) : post_result :=
  PostReturns no_candidates_response.

(** Status 503 once, then the connection fails. *)
Definition backend_down (k : nat) : post_result :=
  match k with
  | O => PostReturns busy_response
  | _ => PostRaises
  end.

(** Status 429, then 500, then 200 with a valid payload. *)
Definition rate_limited_response : http_response :=
  {| status_code := 429; body := "Too Many Requests" |}.

Definition server_error_response : http_response :=
  {| status_code := 500; body := "Internal Server Error" |}.

Definition backend_429_500_200 (k : nat) : post_result :=
  match k with
  | 0%nat => PostReturns rate_limited_response
  | 1%nat => PostReturns server_error_response
  | _ => PostReturns cafe_response
  end.

(** Status 404 every time. *)
Definition not_found_response : http_response :=
  {| status_code := 404; body := "Not Found" |}.

Definition backend_404 (k : nat) : post_result := PostReturns not_found_response.

End GatewayCases.




(** ** Auxiliary notions for the proofs *)

(** Characters of a printed number. *)
Definition plain_char (c : ascii) : bool :=
  is_digit c || Ascii.eqb c "." || Ascii.eqb c "-".

Fixpoint all_plain (s : string) : bool :=
  match s with
  | String c s' => plain_char c && all_plain s'
  | EmptyString => true
  end.

(** The value of a decimal [uint] read after [acc]. *)
Fixpoint uint_val (u : Decimal.uint) (acc : N) : N :=
  match u with
  | Decimal.Nil => acc
  | Decimal.D0 u' => uint_val u' (10 * acc + 0)
  | Decimal.D1 u' => uint_val u' (10 * acc + 1)
  | Decimal.D2 u' => uint_val u' (10 * acc + 2)
  | Decimal.D3 u' => uint_val u' (10 * acc + 3)
  | Decimal.D4 u' => uint_val u' (10 * acc + 4)
  | Decimal.D5 u' => uint_val u' (10 * acc + 5)
  | Decimal.D6 u' => uint_val u' (10 * acc + 6)
  | Decimal.D7 u' => uint_val u' (10 * acc + 7)
  | Decimal.D8 u' => uint_val u' (10 * acc + 8)
  | Decimal.D9 u' => uint_val u' (10 * acc + 9)
  end%N.

(** Every id of the list is the text of a number below [c]. *)
Definition ids_below (ids : list string) (c : Z) : Prop :=
  forall id, In id ids -> exists k, k < c /\ id = str k.

(** Every id of the list is the text of a number from [c] on. *)
Definition ids_from (ids : list string) (c : Z) : Prop :=
  forall id, In id ids -> exists k, c <= k /\ id = str k.

(** The invariant of the two stores: ids are pairwise distinct and were
    taken from the counter. *)
Record store_inv (st : state) : Prop := {
  inv_task_nodup : NoDup (map task_id (tasks st));
  inv_task_below : ids_below (map task_id (tasks st)) (task_id_counter st);
  inv_expense_nodup : NoDup (map expense_id (expenses st));
  inv_expense_below : ids_below (map expense_id (expenses st)) (expense_id_counter st)
}.

(** * Properties *)

(** ** Comparisons with zero *)

Lemma of_int_0 : of_int 0 = S754_zero false.
Proof. reflexivity. Qed.

(** [x >= 0] holds of the zeros, of the positive finite values and of the
    positive infinity. *)
Lemma ge_zero_cases (x : float) :
  ge x (of_int 0) = true <->
  match x with
  | S754_zero _ => True
  | S754_infinity s | S754_finite s _ _ => s = false
  | S754_nan => False
  end.
Proof.
  rewrite of_int_0. unfold ge, SFleb.
  destruct x as [s | s | | s m e]; cbn; try destruct s; intuition congruence.
Qed.

Lemma lt_not_ge (x : float) : lt x (of_int 0) = true -> ge x (of_int 0) = false.
Proof.
  rewrite of_int_0. unfold lt, ge, SFltb, SFleb.
  destruct x as [s | s | | s m e]; cbn; try destruct s; congruence.
Qed.

(** ** Decimal text of integers and floats *)

Lemma to_int_not_nil (n : Z) : Z.to_int n <> Decimal.Pos Decimal.Nil /\ Z.to_int n <> Decimal.Neg Decimal.Nil.
Proof.
  pose proof (DecimalZ.to_of (Z.to_int n)) as H.
  rewrite DecimalZ.of_to in H.
  split; intros E; rewrite E in H; discriminate.
Qed.

Lemma str_inj (n n' : Z) : str n = str n' -> n = n'.
Proof.
  unfold str. intros H.
  apply DecimalZ.to_int_inj.
  destruct (to_int_not_nil n) as [A B], (to_int_not_nil n') as [A' B'].
  pose proof (NilZero.isi _ A B) as E. rewrite H in E.
  rewrite (NilZero.isi _ A' B') in E. congruence.
Qed.

Lemma plain_char_facts (c : ascii) :
  plain_char c = true ->
  is_space c = false /\ Ascii.eqb c "_" = false /\ lower_char c = c.
Proof.
  destruct c as [[|] [|] [|] [|] [|] [|] [|] [|]]; intros H;
    try discriminate H; repeat split.
Qed.

Lemma all_plain_app (s t : string) :
  all_plain (s ++ t) = all_plain s && all_plain t.
Proof.
  induction s as [| c s IH]; cbn; [reflexivity |].
  rewrite IH, andb_assoc. reflexivity.
Qed.

Lemma rstrip_plain (s : string) : all_plain s = true -> rstrip s = s.
Proof.
  induction s as [| c s IH]; cbn; [reflexivity |].
  intros H. apply andb_true_iff in H as [Hc Hs].
  rewrite (IH Hs). destruct (plain_char_facts c Hc) as [-> _].
  destruct s; reflexivity.
Qed.

Lemma strip_plain (s : string) : all_plain s = true -> strip s = s.
Proof.
  intros H. unfold strip.
  assert (L : lstrip s = s).
  { destruct s as [| c s]; [reflexivity |]. cbn in *.
    apply andb_true_iff in H as [Hc _].
    destruct (plain_char_facts c Hc) as [-> _]. reflexivity. }
  rewrite L. apply rstrip_plain, H.
Qed.

Lemma drop_underscores_plain (s : string) (prev : option ascii) :
  all_plain s = true -> prev <> Some "_"%char ->
  drop_underscores prev s = Some s.
Proof.
  revert prev. induction s as [| c s IH]; intros prev H Hp.
  - cbn. destruct prev as [p |]; [| reflexivity].
    destruct p as [[|] [|] [|] [|] [|] [|] [|] [|]]; try reflexivity. congruence.
  - cbn in H. apply andb_true_iff in H as [Hc Hs].
    destruct (plain_char_facts c Hc) as (_ & Hu & _).
    cbn [drop_underscores]. rewrite Hu.
    assert (R : drop_underscores (Some c) s = Some s).
    { apply IH; [exact Hs |]. intros [= ->]. discriminate Hu. }
    rewrite R.
    destruct prev as [p |]; [| reflexivity].
    destruct p as [[|] [|] [|] [|] [|] [|] [|] [|]]; try reflexivity. congruence.
Qed.

Lemma lower_plain (s : string) : all_plain s = true -> lower s = s.
Proof.
  induction s as [| c s IH]; cbn; [reflexivity |].
  intros H. apply andb_true_iff in H as [Hc Hs].
  destruct (plain_char_facts c Hc) as (_ & _ & ->). rewrite (IH Hs). reflexivity.
Qed.

Lemma read_digits_uint (u : Decimal.uint) (acc : N) (k : nat) (rest : string) :
  read_digits acc k (NilEmpty.string_of_uint u ++ rest)
  = read_digits (uint_val u acc) (Decimal.nb_digits u + k) rest.
Proof.
  revert acc k. induction u; intros acc k; cbn [NilEmpty.string_of_uint append uint_val Decimal.nb_digits];
    [reflexivity | ..];
    cbn [read_digits]; change (is_digit _) with true; cbv iota;
    rewrite IHu; rewrite Nat.add_succ_r; reflexivity.
Qed.

Lemma uint_val_acc (u : Decimal.uint) (p : positive) :
  uint_val u (Npos p) = Npos (Pos.of_uint_acc u p).
Proof.
  revert p. induction u; intros p; cbn [uint_val Pos.of_uint_acc];
    [reflexivity | ..]; rewrite <- IHu; f_equal; lia.
Qed.

Lemma uint_val_of_uint (u : Decimal.uint) : uint_val u 0 = Pos.of_uint u.
Proof.
  induction u; cbn [uint_val Pos.of_uint]; [reflexivity | exact IHu | ..];
    apply uint_val_acc.
Qed.

Lemma all_plain_uint (u : Decimal.uint) : all_plain (NilEmpty.string_of_uint u) = true.
Proof. induction u; cbn; auto. Qed.

Lemma str_nonneg (n : Z) :
  0 <= n ->
  exists u, u <> Decimal.Nil /\ str n = NilEmpty.string_of_uint u /\
            Pos.of_uint u = Z.to_N n.
Proof.
  intros Hn. destruct n as [| p | p]; [| | lia].
  - exists (Decimal.D0 Decimal.Nil). repeat split. discriminate.
  - exists (Pos.to_uint p).
    pose proof (DecimalPos.Unsigned.of_to p) as E.
    assert (NN : Pos.to_uint p <> Decimal.Nil).
    { intros Hnil. rewrite Hnil in E. discriminate E. }
    repeat split; [exact NN | | exact E].
    unfold str. cbn [Z.to_int NilZero.string_of_int].
    unfold NilZero.string_of_uint. destruct (Pos.to_uint p); congruence.
Qed.

Lemma digit_char_facts (k : Z) :
  0 <= k <= 9 ->
  is_digit (digit_char k) = true /\ digit_val (digit_char k) = Z.to_N k /\
  plain_char (digit_char k) = true.
Proof.
  intros H.
  assert (C : k = 0 \/ k = 1 \/ k = 2 \/ k = 3 \/ k = 4 \/ k = 5 \/ k = 6 \/
              k = 7 \/ k = 8 \/ k = 9) by lia.
  repeat (destruct C as [-> | C]; [repeat split |]). subst k. repeat split.
Qed.

Lemma read_sign_uint (u : Decimal.uint) (rest : string) :
  u <> Decimal.Nil ->
  read_sign (NilEmpty.string_of_uint u ++ rest)
  = (false, NilEmpty.string_of_uint u ++ rest).
Proof. destruct u; intros H; [congruence | reflexivity ..]. Qed.

Lemma not_special_uint (u : Decimal.uint) (rest : string) :
  u <> Decimal.Nil ->
  let t := NilEmpty.string_of_uint u ++ rest in
  String.eqb t "inf" || String.eqb t "infinity" = false /\ String.eqb t "nan" = false.
Proof. destruct u; intros H; [congruence | split; reflexivity ..]. Qed.

(** Reading back a count of hundredths printed with two decimals. *)
Lemma of_string_fixed2 (neg : bool) (c : Z) :
  0 <= c ->
  of_string (sign_string neg ++ fixed2 c) = Some (of_decimal neg (Z.to_N c) (-2)).
Proof.
  intros Hc. unfold fixed2.
  assert (Hq : 0 <= c / 100) by (apply Z.div_pos; lia).
  destruct (str_nonneg _ Hq) as (u & Hu & -> & Hval).
  assert (H1 : 0 <= c mod 100 / 10 <= 9).
  { pose proof (Z.mod_pos_bound c 100 ltac:(lia)). split.
    - apply Z.div_pos; lia.
    - apply Z.lt_succ_r, Z.div_lt_upper_bound; lia. }
  assert (H2 : 0 <= c mod 10 <= 9) by (pose proof (Z.mod_pos_bound c 10 ltac:(lia)); lia).
  destruct (digit_char_facts _ H1) as (D1 & V1 & P1).
  destruct (digit_char_facts _ H2) as (D2 & V2 & P2).
  set (d1 := digit_char (c mod 100 / 10)) in *.
  set (d2 := digit_char (c mod 10)) in *.
  set (tail := "." ++ String d1 (String d2 "")).
  set (t := NilEmpty.string_of_uint u ++ tail).
  assert (Pt : all_plain t = true).
  { unfold t, tail. rewrite all_plain_app, all_plain_uint. cbn. rewrite P1, P2. reflexivity. }
  assert (Ps : all_plain (sign_string neg ++ t) = true).
  { rewrite all_plain_app, Pt. destruct neg; reflexivity. }
  unfold of_string. rewrite (strip_plain _ Ps).
  rewrite (drop_underscores_plain _ None Ps) by discriminate.
  assert (RS : read_sign (sign_string neg ++ t) = (neg, t)).
  { destruct neg; [reflexivity |]. apply read_sign_uint, Hu. }
  rewrite RS. rewrite (lower_plain _ Pt).
  destruct (not_special_uint u tail Hu) as [S1 S2]. fold t in S1, S2.
  rewrite S1, S2.
  unfold read_numeral, t. rewrite read_digits_uint.
  unfold tail at 1. cbn [append read_digits]. change (is_digit ".") with false. cbv iota.
  cbn [read_digits]. rewrite D1, D2. cbn [read_digits].
  rewrite Nat.add_0_r, Nat.add_comm. cbn [Nat.add read_exponent].
  rewrite uint_val_of_uint, Hval, V1, V2.
  do 2 f_equal.
  f_equal. apply N2Z.inj. rewrite Z2N.id by lia.
  rewrite !N2Z.inj_add, !N2Z.inj_mul, !Z2N.id by lia.
  change (Z.of_N 10) with 10.
  Z.div_mod_to_equations. lia.
Qed.

Lemma cents_nonneg (m : positive) (e : Z) : 0 <= cents m e.
Proof.
  unfold cents. destruct e as [| p | p].
  - cbn. lia.
  - assert (0 < 2 ^ Zpos p) by (apply Z.pow_pos_nonneg; lia). nia.
  - assert (D : 0 < 2 ^ Zpos p) by (apply Z.pow_pos_nonneg; lia).
    assert (Q : 0 <= 100 * Zpos m / 2 ^ Zpos p) by (apply Z.div_pos; lia).
    destruct (2 * _ ?= _); [destruct (Z.even _) | |]; lia.
Qed.

(** [cents] is exact on integers. *)
Lemma cents_exact (m : positive) (e : Z) :
  0 <= e -> cents m e = 100 * Zpos m * 2 ^ e.
Proof. destruct e; [reflexivity | reflexivity | lia]. Qed.

(** The rounding of [f"{x:.2f}"]: for a value [m / 2^p] the digits
    printed are those of the integer nearest to a hundred times the value,
    and of the even one when two integers are equally near. *)
Theorem cents_nearest (m : positive) (p : positive) :
  let d := 2 ^ Zpos p in
  let c := cents m (Zneg p) in
  2 * Z.abs (100 * Zpos m - c * d) <= d /\
  (2 * Z.abs (100 * Zpos m - c * d) = d -> Z.even c = true).
Proof.
  cbv zeta. unfold cents.
  assert (D : 0 < 2 ^ Zpos p) by (apply Z.pow_pos_nonneg; lia).
  pose proof (Z.div_mod (100 * Zpos m) (2 ^ Zpos p) ltac:(lia)) as E.
  pose proof (Z.mod_pos_bound (100 * Zpos m) (2 ^ Zpos p) D) as B.
  set (q := 100 * Zpos m / 2 ^ Zpos p) in *.
  set (r := (100 * Zpos m) mod 2 ^ Zpos p) in *.
  set (d := 2 ^ Zpos p) in *.
  destruct (Z.compare_spec (2 * r) d) as [C | C | C].
  - destruct (Z.even q) eqn:Ev.
    + split; [nia | auto].
    + split; [nia |]. intros _.
      rewrite Z.even_add, Ev. reflexivity.
  - split; [nia | nia].
  - split; [nia | nia].
Qed.

Lemma of_string_format_2f (x : float) :
  of_string (format_2f x) = Some (round_2_decimals x).
Proof.
  destruct x as [s | s | | s m e]; try (destruct s; reflexivity); [reflexivity |].
  cbn [format_2f round_2_decimals]. apply of_string_fixed2, cents_nonneg.
Qed.

Lemma two_decimals_fixed2 (neg : bool) (c : Z) :
  0 <= c -> two_decimals (sign_string neg ++ fixed2 c) = true.
Proof.
  intros Hc. unfold fixed2.
  assert (Hq : 0 <= c / 100) by (apply Z.div_pos; lia).
  destruct (str_nonneg _ Hq) as (u & Hu & -> & Hval).
  assert (H1 : 0 <= c mod 100 / 10 <= 9).
  { pose proof (Z.mod_pos_bound c 100 ltac:(lia)). split.
    - apply Z.div_pos; lia.
    - apply Z.lt_succ_r, Z.div_lt_upper_bound; lia. }
  assert (H2 : 0 <= c mod 10 <= 9) by (pose proof (Z.mod_pos_bound c 10 ltac:(lia)); lia).
  destruct (digit_char_facts _ H1) as (D1 & _ & _).
  destruct (digit_char_facts _ H2) as (D2 & _ & _).
  set (tail := "." ++ String (digit_char (c mod 100 / 10)) (String (digit_char (c mod 10)) "")).
  assert (G : two_decimals (NilEmpty.string_of_uint u ++ tail) = true).
  { unfold two_decimals.
    replace (match NilEmpty.string_of_uint u ++ tail with
             | String "-" r => r | _ => NilEmpty.string_of_uint u ++ tail end)
      with (NilEmpty.string_of_uint u ++ tail)
      by (destruct u; [congruence | reflexivity ..]).
    rewrite read_digits_uint. unfold tail. cbn [append read_digits].
    change (is_digit ".") with false. cbv iota.
    rewrite D1, D2. destruct u; [congruence | reflexivity ..]. }
  destruct neg; [| exact G].
  cbn [sign_string append]. unfold two_decimals in *.
  destruct u; [congruence | exact G ..].
Qed.

Lemma format_2f_two_decimals (x : float) :
  is_finite x = true -> two_decimals (format_2f x) = true.
Proof.
  destruct x as [s | s | | s m e]; try discriminate; intros _.
  - destruct s; reflexivity.
  - apply two_decimals_fixed2, cents_nonneg.
Qed.

(** ** The task store *)

(** C4: when the trimmed text is not empty, [add_task] puts one new task in
    front of the list, with the counter's value as its id and whatever the
    trimmed location is (the empty string included), and advances the
    counter by one; when the trimmed text is empty, nothing changes. Either
    way the answer is the redirect. *)
Theorem add_task_spec (f : form) (st : state) :
  let task_text := strip (form_get f "task-input" "") in
  let location_text := strip (form_get f "location-input" "") in
  let st' := snd (add_task f st) in
  fst (add_task f st) = Redirect "index" /\
  (truthy task_text = true ->
     tasks st' = {| task_id := str (task_id_counter st);
                    text := task_text;
                    location := location_text |} :: tasks st /\
     List.length (tasks st') = S (List.length (tasks st)) /\
     task_id_counter st' = task_id_counter st + 1) /\
  (truthy task_text = false -> st' = st) /\
  tasks (snd (add_task [("task-input", " Visit museum ")] init))
    = [{| task_id := "1"; text := "Visit museum"; location := "" |}].
Proof.
  cbv zeta. unfold add_task, new_task. cbn [fst snd].
  destruct (truthy (strip (form_get f "task-input" ""))).
  - cbn [tasks task_id_counter]. repeat split; try reflexivity; discriminate.
  - repeat split; try reflexivity; discriminate.
Qed.

(** Deleting an id that no task carries changes nothing. *)
Theorem delete_task_missing_id (id : string) (st : state) :
  (forall t, In t (tasks st) -> task_id t <> id) ->
  delete_task id st = (Redirect "index", st).
Proof.
  intros H. unfold delete_task. f_equal. destruct st as [ts c es ec b].
  cbn [tasks task_id_counter expenses expense_id_counter total_trip_budget] in *.
  f_equal. induction ts as [| t ts IH]; [reflexivity |].
  cbn [filter]. destruct (String.eqb_spec (task_id t) id) as [E | _].
  - exfalso. apply (H t); [left; reflexivity | exact E].
  - cbn [negb]. f_equal. apply IH. intros t' Ht'. apply H. right. exact Ht'.
Qed.

Lemma delete_task_missing_id_witness :
  let st := snd (add_task [("task-input", "Visit museum")] init) in
  delete_task "7" st = (Redirect "index", st).
Proof.
  apply (delete_task_missing_id "7"
           (snd (add_task [("task-input", "Visit museum")] init))).
  intros t [<- | []]. discriminate.
Defined.

(** ** The expense store *)

(** C2 as stated fails: a decimal numeral too large for binary64 parses to
    the positive infinity, which is not below zero; the expense is created
    and its amount is stored as the text [inf]. *)
Lemma add_expense_overflow_amount :
  let f := [("expense-description", "Gold"); ("expense-amount", "1e999");
            ("expense-category", "Other")] in
  of_string (strip "1e999") = Some (S754_infinity false) /\
  ge (S754_infinity false) (of_int 0) = true /\
  truthy (strip "Gold") = true /\
  expenses (snd (add_expense f init))
    = [{| expense_id := "1"; description := "Gold"; amount := "inf";
          category := "Other" |}] /\
  two_decimals "inf" = false.
Proof. vm_compute. repeat split. Qed.

(** C2, amended: when the amount parses to a finite value that is not below
    zero (zero included) and the trimmed description is not empty,
    [add_expense] puts one new expense in front of the list, with the
    counter's value as its id and the amount printed with exactly two
    decimal digits, and advances the counter by one. *)
Theorem add_expense_accepts (f : form) (st : state) (x : float) :
  let description := strip (form_get f "expense-description" "") in
  let amount_str := strip (form_get f "expense-amount" "") in
  let category := strip (form_get f "expense-category" "Other") in
  let st' := snd (add_expense f st) in
  of_string amount_str = Some x ->
  is_finite x = true ->
  ge x (of_int 0) = true ->
  truthy description = true ->
  expenses st' = {| expense_id := str (expense_id_counter st);
                    description := description;
                    amount := format_2f x;
                    category := category |} :: expenses st /\
  List.length (expenses st') = S (List.length (expenses st)) /\
  expense_id_counter st' = expense_id_counter st + 1 /\
  two_decimals (format_2f x) = true.
Proof.
  cbv zeta. intros Hx Hfin Hge Hd.
  unfold add_expense, new_expense. rewrite Hx, Hd, Hge. cbn.
  repeat split. apply format_2f_two_decimals, Hfin.
Qed.

(** The two accepted submissions of the specification: ["3.5"] is stored
    as ["3.50"], and a zero amount is accepted. *)
Lemma add_expense_accepts_witness :
  expenses (snd (add_expense [("expense-description", "Coffee");
                             ("expense-amount", "3.5");
                             ("expense-category", "Food")] init))
    = [{| expense_id := "1"; description := "Coffee"; amount := "3.50";
          category := "Food" |}] /\
  expenses (snd (add_expense [("expense-description", "Free sample");
                             ("expense-amount", "0");
                             ("expense-category", "Food")] init))
    = [{| expense_id := "1"; description := "Free sample"; amount := "0.00";
          category := "Food" |}].
Proof.
  split.
  - apply (add_expense_accepts
             [("expense-description", "Coffee"); ("expense-amount", "3.5");
              ("expense-category", "Food")] init
             (S754_finite false 7881299347898368 (-51)));
      reflexivity.
  - apply (add_expense_accepts
             [("expense-description", "Free sample"); ("expense-amount", "0");
              ("expense-category", "Food")] init (S754_zero false));
      reflexivity.
Defined.

(** C5: when the amount does not parse, or parses to a value below zero, or
    the trimmed description is empty, [add_expense] answers the redirect and
    leaves the whole state as it was: the list and the counter included. *)
Theorem add_expense_rejects (f : form) (st : state) :
  let description := strip (form_get f "expense-description" "") in
  let amount_str := strip (form_get f "expense-amount" "") in
  of_string amount_str = None \/
  (exists x, of_string amount_str = Some x /\ lt x (of_int 0) = true) \/
  truthy description = false ->
  add_expense f st = (Redirect "index", st).
Proof.
  cbv zeta. intros H. unfold add_expense, new_expense.
  destruct H as [H | [[x [H Hx]] | H]]; rewrite H.
  - reflexivity.
  - rewrite (lt_not_ge _ Hx), andb_false_r. reflexivity.
  - destruct (of_string _); reflexivity.
Qed.

(** The two rejected submissions of the specification: a negative amount,
    and an empty description. *)
Lemma add_expense_rejects_witness :
  add_expense [("expense-description", "Tea"); ("expense-amount", "-1");
               ("expense-category", "Food")] init = (Redirect "index", init) /\
  add_expense [("expense-description", ""); ("expense-amount", "5");
               ("expense-category", "Food")] init = (Redirect "index", init).
Proof.
  split.
  - apply add_expense_rejects. right. left.
    exists (S754_finite true 4503599627370496 (-52)). split; reflexivity.
  - apply add_expense_rejects. right. right. reflexivity.
Defined.

(** C7 as stated fails: a category field that is present but blank does
    not bring the default in; the record is created with the empty string
    as its category. *)
Lemma blank_category_is_stored_empty :
  let f := [("expense-description", "Coffee"); ("expense-amount", "3.5");
            ("expense-category", "   ")] in
  expenses (snd (add_expense f init))
    = [{| expense_id := "1"; description := "Coffee"; amount := "3.50";
          category := "" |}] /\
  option_map category (new_expense f init) <> Some "Other".
Proof. split; [reflexivity | discriminate]. Qed.

(** C7, amended: the category of a created expense is the trimmed value of
    the field [expense-category]; it is ["Other"] when the form has no such
    field. *)
Theorem category_default (f : form) (st : state) (e : expense) :
  new_expense f st = Some e ->
  (form_lookup f "expense-category" = None -> category e = "Other") /\
  (forall v, form_lookup f "expense-category" = Some v -> category e = strip v).
Proof.
  unfold new_expense, form_get. intros H.
  destruct (of_string _) as [x |]; [| discriminate].
  destruct (truthy _ && ge x (of_int 0)); [| discriminate].
  injection H as <-. cbn [category].
  split.
  - intros ->. reflexivity.
  - intros v ->. reflexivity.
Qed.

Lemma category_default_witness :
  let f := [("expense-description", "Coffee"); ("expense-amount", "3.5")] in
  let e := {| expense_id := "1"; description := "Coffee"; amount := "3.50";
              category := "Other" |} in
  new_expense f init = Some e /\ category e = "Other".
Proof.
  split; [reflexivity |].
  apply (category_default
           [("expense-description", "Coffee"); ("expense-amount", "3.5")] init);
    reflexivity.
Defined.

(** ** The budget ledger *)

(** C3: [set_budget] answers the redirect whatever the input. When the
    trimmed input does not parse, or parses to a value below zero, the state
    is left as it was. When it parses to a value that is not below zero, the
    budget becomes that value rounded to two decimals and nothing else
    changes. In particular ["2500"] and then ["abc"] leave the budget at
    2500.00. *)
Theorem set_budget_spec (f : form) (st : state) :
  let raw := strip (form_get f "total-budget-input" "0.00") in
  let st' := snd (set_budget f st) in
  fst (set_budget f st) = Redirect "index" /\
  (of_string raw = None -> st' = st) /\
  (forall x, of_string raw = Some x -> lt x (of_int 0) = true -> st' = st) /\
  (forall x, of_string raw = Some x -> ge x (of_int 0) = true ->
     total_trip_budget st' = round_2_decimals x /\
     tasks st' = tasks st /\ task_id_counter st' = task_id_counter st /\
     expenses st' = expenses st /\
     expense_id_counter st' = expense_id_counter st) /\
  (let st1 := snd (set_budget [("total-budget-input", "2500")] st) in
   let st2 := snd (set_budget [("total-budget-input", "abc")] st1) in
   total_trip_budget st2 = of_decimal false 250000 (-2) /\
   format_2f (total_trip_budget st2) = "2500.00").
Proof.
  cbv zeta. unfold set_budget. cbn [fst snd].
  split; [reflexivity |]. split; [| split; [| split]].
  - intros ->. reflexivity.
  - intros x -> Hx. rewrite (lt_not_ge _ Hx). reflexivity.
  - intros x -> Hx. rewrite Hx, of_string_format_2f. cbn. repeat split.
  - vm_compute. split; reflexivity.
Qed.

(** C10: a submission without the field [total-budget-input] sets the
    budget to 0.00, whatever it was: the default text ["0.00"] takes the
    place of the missing value, parses, and is not below zero. The rest of
    the state is untouched. *)
Theorem set_budget_missing_field (f : form) (st : state) :
  form_lookup f "total-budget-input" = None ->
  let st' := snd (set_budget f st) in
  total_trip_budget st' = S754_zero false /\
  format_2f (total_trip_budget st') = "0.00" /\
  tasks st' = tasks st /\ task_id_counter st' = task_id_counter st /\
  expenses st' = expenses st /\ expense_id_counter st' = expense_id_counter st.
Proof.
  intros H. unfold set_budget, form_get. rewrite H. cbn. repeat split.
Qed.

Lemma set_budget_missing_field_witness :
  let st := snd (set_budget [("total-budget-input", "2500")] init) in
  total_trip_budget st = of_decimal false 250000 (-2) /\
  total_trip_budget (snd (set_budget [("other-field", "7")] st)) = S754_zero false.
Proof.
  split; [reflexivity |].
  apply (set_budget_missing_field [("other-field", "7")]
           (snd (set_budget [("total-budget-input", "2500")] init))).
  reflexivity.
Defined.

(** ** Derived budget figures *)

Lemma amounts_stored (es : list expense) :
  Forall stored_amount es ->
  exists xs, amounts es = Ok xs /\
             Forall2 (fun e x => of_string (amount e) = Some x) es xs.
Proof.
  induction 1 as [| e es (x & _ & Hx) _ (xs & IH & IH2)].
  - exists []. split; constructor.
  - exists (round_2_decimals x :: xs). cbn [amounts].
    rewrite Hx, of_string_format_2f, IH. split; [reflexivity |].
    constructor; [| exact IH2]. rewrite Hx. apply of_string_format_2f.
Qed.

Ltac handler_cases :=
  repeat match goal with
         | |- context [match ?x with _ => _ end] => destruct x eqn:?
         end.

Lemma set_budget_expenses (f : form) (st : state) :
  expenses (snd (set_budget f st)) = expenses st.
Proof. unfold set_budget. cbn [snd]. handler_cases; reflexivity. Qed.

Lemma new_expense_stored (f : form) (st : state) (e : expense) :
  new_expense f st = Some e -> stored_amount e.
Proof.
  unfold new_expense. destruct (of_string _) as [x |]; [| discriminate].
  destruct (truthy _); [| discriminate]. cbn [andb].
  destruct (ge x (of_int 0)) eqn:G; [| discriminate].
  intros [= <-]. exists x. split; [exact G | reflexivity].
Qed.

Lemma handle_stored (r : request) (st : state) :
  Forall stored_amount (expenses st) ->
  Forall stored_amount (expenses (snd (handle r st))).
Proof.
  intros H. destruct r as [f | f | id | f | id]; cbn [handle].
  - rewrite set_budget_expenses. exact H.
  - unfold add_task. cbn [snd]. destruct (new_task f st); exact H.
  - exact H.
  - unfold add_expense. cbn [snd].
    destruct (new_expense f st) as [e |] eqn:E; [| exact H].
    constructor; [eapply new_expense_stored, E | exact H].
  - cbn [delete_expense snd expenses].
    rewrite Forall_forall in *. intros e He. apply filter_In in He. apply H, He.
Qed.

Lemma run_stored (rs : list request) (st : state) :
  Forall stored_amount (expenses st) ->
  Forall stored_amount (expenses (run rs st)).
Proof.
  revert st. induction rs as [| r rs IH]; intros st H; [exact H |].
  cbn [run]. apply IH, handle_stored, H.
Qed.

(** The dashboard renders after every run of requests from the start of
    the process: no stored amount fails to parse. *)
Theorem index_never_raises (rs : list request) :
  exists p, index (run rs init) = Ok p /\
            page_expenses p = expenses (run rs init) /\
            remaining_budget p = sub (total_trip_budget (run rs init)) (total_expenses p).
Proof.
  assert (H : Forall stored_amount (expenses (run rs init)))
    by (apply run_stored; constructor).
  destruct (amounts_stored _ H) as (xs & E & _).
  unfold index. rewrite E. eexists. repeat split.
Qed.

(** ** Ids *)

Lemma str_not_below (ids : list string) (c : Z) :
  ids_below ids c -> ~ In (str c) ids.
Proof.
  intros H Hin. destruct (H _ Hin) as (k & Hk & E).
  apply str_inj in E. lia.
Qed.

Lemma str_not_from (ids : list string) (c : Z) :
  ids_from ids (c + 1) -> ~ In (str c) ids.
Proof.
  intros H Hin. destruct (H _ Hin) as (k & Hk & E).
  apply str_inj in E. lia.
Qed.

Lemma NoDup_map_filter {A B : Type} (g : A -> B) (p : A -> bool) (l : list A) :
  NoDup (map g l) -> NoDup (map g (filter p l)).
Proof.
  induction l as [| a l IH]; cbn; [auto |].
  intros H. inversion H as [| ? ? Hn Hd]; subst.
  destruct (p a); cbn; [| auto].
  constructor; [| auto].
  intros Hin. apply Hn. apply in_map_iff in Hin as (b & E & Hb).
  apply in_map_iff. exists b. split; [exact E |]. apply filter_In in Hb. apply Hb.
Qed.

Lemma incl_map_filter {A B : Type} (g : A -> B) (p : A -> bool) (l : list A) :
  incl (map g (filter p l)) (map g l).
Proof.
  intros b Hin. apply in_map_iff in Hin as (a & E & Ha).
  apply in_map_iff. exists a. split; [exact E |]. apply filter_In in Ha. apply Ha.
Qed.

Lemma ids_below_cons (ids : list string) (c : Z) :
  ids_below ids c -> ids_below (str c :: ids) (c + 1).
Proof.
  intros H id [<- | Hin].
  - exists c. split; [lia | reflexivity].
  - destruct (H _ Hin) as (k & Hk & E). exists k. split; [lia | exact E].
Qed.

Lemma ids_below_incl (ids ids' : list string) (c : Z) :
  incl ids' ids -> ids_below ids c -> ids_below ids' c.
Proof. intros Hi H id Hin. apply H, Hi, Hin. Qed.

Lemma init_inv : store_inv init.
Proof. split; cbn; try constructor; intros id []. Qed.

Lemma set_budget_frame (f : form) (st : state) :
  tasks (snd (set_budget f st)) = tasks st /\
  task_id_counter (snd (set_budget f st)) = task_id_counter st /\
  expense_id_counter (snd (set_budget f st)) = expense_id_counter st.
Proof. unfold set_budget. cbn [snd]. handler_cases; repeat split. Qed.

Lemma new_task_id (f : form) (st : state) (t : task) :
  new_task f st = Some t -> task_id t = str (task_id_counter st).
Proof. unfold new_task. destruct (truthy _); [| discriminate]. now intros [= <-]. Qed.

Lemma new_expense_id (f : form) (st : state) (e : expense) :
  new_expense f st = Some e -> expense_id e = str (expense_id_counter st).
Proof.
  unfold new_expense. destruct (of_string _); [| discriminate].
  destruct (_ && _); [| discriminate]. now intros [= <-].
Qed.

Lemma handle_inv (r : request) (st : state) :
  store_inv st -> store_inv (snd (handle r st)).
Proof.
  intros [T1 T2 E1 E2]. destruct r as [f | f | id | f | id]; cbn [handle].
  - destruct (set_budget_frame f st) as (A & B & C).
    split; rewrite ?A, ?B, ?C, ?set_budget_expenses; assumption.
  - unfold add_task. cbn [snd].
    destruct (new_task f st) as [t |] eqn:N; [| split; assumption].
    apply new_task_id in N.
    split; cbn [tasks task_id_counter expenses expense_id_counter map];
      rewrite ?N; try assumption.
    + constructor; [apply str_not_below, T2 | exact T1].
    + apply ids_below_cons, T2.
  - split; cbn [delete_task snd tasks task_id_counter expenses expense_id_counter];
      try assumption.
    + apply NoDup_map_filter, T1.
    + eapply ids_below_incl; [apply incl_map_filter | exact T2].
  - unfold add_expense. cbn [snd].
    destruct (new_expense f st) as [e |] eqn:N; [| split; assumption].
    apply new_expense_id in N.
    split; cbn [tasks task_id_counter expenses expense_id_counter map];
      rewrite ?N; try assumption.
    + constructor; [apply str_not_below, E2 | exact E1].
    + apply ids_below_cons, E2.
  - split; cbn [delete_expense snd tasks task_id_counter expenses expense_id_counter];
      try assumption.
    + apply NoDup_map_filter, E1.
    + eapply ids_below_incl; [apply incl_map_filter | exact E2].
Qed.

Lemma run_inv (rs : list request) (st : state) :
  store_inv st -> store_inv (run rs st).
Proof.
  revert st. induction rs as [| r rs IH]; intros st H; [exact H |].
  cbn [run]. apply IH, handle_inv, H.
Qed.

(** No handler ever lowers a counter; a handler that hands out an id hands
    out the counter's value and raises the counter by one. *)
Lemma handle_counters (r : request) (st : state) :
  task_id_counter st <= task_id_counter (snd (handle r st)) /\
  expense_id_counter st <= expense_id_counter (snd (handle r st)).
Proof.
  destruct r as [f | f | id | f | id]; cbn [handle].
  - destruct (set_budget_frame f st) as (_ & -> & ->). lia.
  - unfold add_task. cbn [snd]. destruct (new_task f st); cbn; lia.
  - cbn. lia.
  - unfold add_expense. cbn [snd]. destruct (new_expense f st); cbn; lia.
  - cbn. lia.
Qed.

Lemma issued_task_step (r : request) (st : state) :
  (issued_task_id r st = [] \/
   issued_task_id r st = [str (task_id_counter st)] /\
   task_id_counter (snd (handle r st)) = task_id_counter st + 1).
Proof.
  destruct r as [f | f | id | f | id]; cbn [issued_task_id]; auto.
  cbn [handle]. unfold add_task. cbn [snd].
  destruct (new_task f st) as [t |] eqn:N; [right | auto].
  rewrite (new_task_id _ _ _ N). auto.
Qed.

Lemma issued_expense_step (r : request) (st : state) :
  (issued_expense_id r st = [] \/
   issued_expense_id r st = [str (expense_id_counter st)] /\
   expense_id_counter (snd (handle r st)) = expense_id_counter st + 1).
Proof.
  destruct r as [f | f | id | f | id]; cbn [issued_expense_id]; auto.
  cbn [handle]. unfold add_expense. cbn [snd].
  destruct (new_expense f st) as [e |] eqn:N; [right | auto].
  rewrite (new_expense_id _ _ _ N). auto.
Qed.

Lemma issued_task_ids_from (rs : list request) (st : state) :
  ids_from (issued_task_ids rs st) (task_id_counter st).
Proof.
  revert st. induction rs as [| r rs IH]; intros st id Hin; [destruct Hin |].
  cbn [issued_task_ids] in Hin. apply in_app_or in Hin as [Hin | Hin].
  - destruct (issued_task_step r st) as [E | [E _]]; rewrite E in Hin.
    + destruct Hin.
    + destruct Hin as [<- | []]. exists (task_id_counter st). split; [lia | reflexivity].
  - destruct (IH _ _ Hin) as (k & Hk & E).
    pose proof (handle_counters r st) as [M _].
    exists k. split; [lia | exact E].
Qed.

Lemma issued_expense_ids_from (rs : list request) (st : state) :
  ids_from (issued_expense_ids rs st) (expense_id_counter st).
Proof.
  revert st. induction rs as [| r rs IH]; intros st id Hin; [destruct Hin |].
  cbn [issued_expense_ids] in Hin. apply in_app_or in Hin as [Hin | Hin].
  - destruct (issued_expense_step r st) as [E | [E _]]; rewrite E in Hin.
    + destruct Hin.
    + destruct Hin as [<- | []]. exists (expense_id_counter st). split; [lia | reflexivity].
  - destruct (IH _ _ Hin) as (k & Hk & E).
    pose proof (handle_counters r st) as [_ M].
    exists k. split; [lia | exact E].
Qed.

Lemma issued_task_ids_nodup (rs : list request) (st : state) :
  NoDup (issued_task_ids rs st).
Proof.
  revert st. induction rs as [| r rs IH]; intros st; [constructor |].
  cbn [issued_task_ids].
  destruct (issued_task_step r st) as [E | [E C]]; rewrite E; cbn [app]; [apply IH |].
  constructor; [| apply IH].
  apply str_not_from. rewrite <- C. apply issued_task_ids_from.
Qed.

Lemma issued_expense_ids_nodup (rs : list request) (st : state) :
  NoDup (issued_expense_ids rs st).
Proof.
  revert st. induction rs as [| r rs IH]; intros st; [constructor |].
  cbn [issued_expense_ids].
  destruct (issued_expense_step r st) as [E | [E C]]; rewrite E; cbn [app]; [apply IH |].
  constructor; [| apply IH].
  apply str_not_from. rewrite <- C. apply issued_expense_ids_from.
Qed.

Lemma handle_task_ids (r : request) (st : state) :
  incl (map task_id (tasks (snd (handle r st))))
       (map task_id (tasks st) ++ issued_task_id r st).
Proof.
  destruct r as [f | f | id | f | id]; cbn [handle issued_task_id].
  - destruct (set_budget_frame f st) as (-> & _). apply incl_appl, incl_refl.
  - unfold add_task. cbn [snd]. destruct (new_task f st) as [t |].
    + cbn [tasks map]. intros x [<- | Hx]; apply in_or_app; cbn; auto.
    + apply incl_appl, incl_refl.
  - apply incl_appl. cbn. apply incl_map_filter.
  - unfold add_expense. cbn [snd]. destruct (new_expense f st); apply incl_appl, incl_refl.
  - apply incl_appl, incl_refl.
Qed.

Lemma handle_expense_ids (r : request) (st : state) :
  incl (map expense_id (expenses (snd (handle r st))))
       (map expense_id (expenses st) ++ issued_expense_id r st).
Proof.
  destruct r as [f | f | id | f | id]; cbn [handle issued_expense_id].
  - rewrite set_budget_expenses. apply incl_appl, incl_refl.
  - unfold add_task. cbn [snd]. destruct (new_task f st); apply incl_appl, incl_refl.
  - apply incl_appl, incl_refl.
  - unfold add_expense. cbn [snd]. destruct (new_expense f st) as [e |].
    + cbn [expenses map]. intros x [<- | Hx]; apply in_or_app; cbn; auto.
    + apply incl_appl, incl_refl.
  - apply incl_appl. cbn. apply incl_map_filter.
Qed.

Lemma run_task_ids (rs : list request) (st : state) :
  incl (map task_id (tasks (run rs st)))
       (map task_id (tasks st) ++ issued_task_ids rs st).
Proof.
  revert st. induction rs as [| r rs IH]; intros st.
  - cbn. rewrite List.app_nil_r. apply incl_refl.
  - cbn [run issued_task_ids]. intros x Hx.
    apply IH, in_app_or in Hx. rewrite List.app_assoc.
    apply in_or_app. destruct Hx as [Hx | Hx]; [left | right; exact Hx].
    apply handle_task_ids, Hx.
Qed.

Lemma run_expense_ids (rs : list request) (st : state) :
  incl (map expense_id (expenses (run rs st)))
       (map expense_id (expenses st) ++ issued_expense_ids rs st).
Proof.
  revert st. induction rs as [| r rs IH]; intros st.
  - cbn. rewrite List.app_nil_r. apply incl_refl.
  - cbn [run issued_expense_ids]. intros x Hx.
    apply IH, in_app_or in Hx. rewrite List.app_assoc.
    apply in_or_app. destruct Hx as [Hx | Hx]; [left | right; exact Hx].
    apply handle_expense_ids, Hx.
Qed.

(** C9: along every run of requests from the start of the process, the
    task ids handed out are pairwise distinct, and so are the expense ids:
    an id is never handed out twice, whether or not its record was deleted
    in between. The ids in each list are pairwise distinct and were handed
    out during the run, and no request lowers a counter. *)
Theorem ids_never_reused (rs : list request) :
  let st := run rs init in
  NoDup (issued_task_ids rs init) /\
  NoDup (issued_expense_ids rs init) /\
  NoDup (map task_id (tasks st)) /\
  NoDup (map expense_id (expenses st)) /\
  incl (map task_id (tasks st)) (issued_task_ids rs init) /\
  incl (map expense_id (expenses st)) (issued_expense_ids rs init) /\
  (forall r s, task_id_counter s <= task_id_counter (snd (handle r s)) /\
               expense_id_counter s <= expense_id_counter (snd (handle r s))) /\
  (let rs' := [AddTask [("task-input", "a")]; DeleteTask "1";
               AddTask [("task-input", "b")]] in
   issued_task_ids rs' init = ["1"; "2"] /\
   map task_id (tasks (run rs' init)) = ["2"]).
Proof.
  cbv zeta. pose proof (run_inv rs init init_inv) as [T _ E _].
  repeat split.
  - apply issued_task_ids_nodup.
  - apply issued_expense_ids_nodup.
  - exact T.
  - exact E.
  - apply (run_task_ids rs init).
  - apply (run_expense_ids rs init).
  - apply handle_counters.
  - apply handle_counters.
Qed.

(** ** The suggestion gateway *)

Section GatewayFacts.
Import Gateway.

Variable loads : string -> result json.
Variable post : nat -> post_result.

(** The three ways the branch for status 200 can end. *)
Lemma on_200_cases (r : http_response) :
  (exists t v, payload loads r = Ok (JStr t) /\ loads t = Ok v /\
               on_200 loads r = ([], Ok v)) \/
  (exists t, payload loads r = Ok (JStr t) /\ loads t = Raise JSONDecodeError /\
             on_200 loads r
             = ([Print (ParseErrorMsg (substring 0 200 t))], Ok (JArr []))) \/
  (exists e, on_200 loads r = ([], Raise e) /\
             forall t, payload loads r = Ok (JStr t) ->
                       loads t = Raise e /\ e <> JSONDecodeError).
Proof.
  unfold on_200, payload, lift, iobind, bind.
  destruct (loads (body r)) as [result | e].
  2:{ right; right. exists e. split; [reflexivity | discriminate]. }
  destruct (extract_text result) as [jt | e].
  2:{ right; right. exists e. split; [reflexivity | discriminate]. }
  destruct jt as [| b | n | x | t | items | fields];
    try (right; right; exists OtherException; split; [reflexivity | discriminate]).
  destruct (loads t) as [v | e] eqn:L.
  - left. exists t, v. rewrite L. cbn. auto.
  - destruct e.
    + right; right. exists ValueError. split; [reflexivity |].
      intros t' [= <-]. split; [exact L | discriminate].
    + right; left. exists t. cbn. auto.
    + right; right. exists OtherException. split; [reflexivity |].
      intros t' [= <-]. split; [exact L | discriminate].
Qed.

(** One turn of the loop. *)
Lemma attempts_cons (i : nat) (indices : list nat) (delay : float) :
  attempts loads post (i :: indices) delay =
  match post i with
  | PostRaises => ([Post i], Raise OtherException)
  | PostReturns r =>
      if status_code r =? 200 then
        (Post i :: fst (on_200 loads r), snd (on_200 loads r))
      else if retryable (status_code r) && (i <? max_retries - 1)%nat then
        (Post i :: Sleep delay
           :: fst (attempts loads post indices (mul delay (of_int 2))),
         snd (attempts loads post indices (mul delay (of_int 2))))
      else ([Post i; Print (ApiErrorMsg (status_code r) (body r))], Ok (JArr []))
  end.
Proof.
  cbn [attempts]. unfold requests_post, emit, iobind, ret, throw.
  destruct (post i) as [| r]; [reflexivity |]. cbn [app].
  destruct (status_code r =? 200).
  - destruct (on_200 loads r) as [tr [v | e]]; reflexivity.
  - destruct (retryable (status_code r) && (i <? max_retries - 1)%nat); [| reflexivity].
    destruct (attempts loads post indices (mul delay (of_int 2))) as [tr [v | e]];
      reflexivity.
Qed.

Lemma second_delay :
  mul (of_decimal false 10 (-1)) (of_int 2) = of_decimal false 20 (-1).
Proof. reflexivity. Qed.


Ltac known_response :=
  match goal with
  | E : post ?k = PostReturns ?r0, H : post ?k = PostReturns ?r |- _ =>
      rewrite E in H; injection H as <-
  | E : post ?k = PostRaises, H : post ?k = PostReturns ?r |- _ =>
      rewrite E in H; discriminate H
  end.

Ltac attempt_index k :=
  destruct k as [| [| [| k]]]; cbn in *; try lia; try known_response.

Ltac retried :=
  eexists; split; [eassumption | split; [assumption | unfold max_retries; lia]].

Ltac close_leaf :=
  cbn -[of_decimal retryable];
  repeat match goal with
         | |- _ /\ _ => split
         end;
  [ eexists; reflexivity
  | lia
  | reflexivity
  | intros k Hk; attempt_index k; retried
  | intros k r Hk Hp Hs Hr Hm; attempt_index k;
    try congruence; try (unfold max_retries in *; lia)
  | intros k r Hk Hp Hs; attempt_index k; try reflexivity; try congruence
  | intros k Hk Hp; attempt_index k; try reflexivity; try congruence
  | intros k r Hk Hp Hs; attempt_index k;
    try (split; [reflexivity |]); intros; try reflexivity; try congruence ].

Ltac ok_leaf r :=
  destruct (on_200_cases r) as [(?t & ?v & ?P & ?L & ->)
                               | [(?t & ?P & ?L & ->) | (?e & -> & ?N)]];
  close_leaf.

(** The course of one call, with the retry condition as the loop tests
    it. *)
Lemma retry_course (data : json) (query : string) :
  request_query data = Ok query ->
  let tr := fst (get_suggestions loads post data) in
  let resp := snd (get_suggestions loads post data) in
  let n := posts tr in
  (exists v, resp = JsonResponse v) /\
  (n <= 3)%nat /\
  without_prints tr = firstn (2 * n - 1) full_course /\
  (forall k, (S k < n)%nat ->
     exists r, post k = PostReturns r /\ retryable (status_code r) = true /\
               (S k < max_retries)%nat) /\
  (forall k r, (k < n)%nat -> post k = PostReturns r -> status_code r <> 200 ->
     retryable (status_code r) = true -> (S k < max_retries)%nat -> (S k < n)%nat) /\
  (forall k r, S k = n -> post k = PostReturns r -> status_code r <> 200 ->
     resp = JsonResponse (JArr [])) /\
  (forall k, S k = n -> post k = PostRaises -> resp = JsonResponse (JArr [])) /\
  (forall k r, (k < n)%nat -> post k = PostReturns r -> status_code r = 200 ->
     S k = n /\
     forall t, payload loads r = Ok (JStr t) -> loads t = Raise JSONDecodeError ->
       resp = JsonResponse (JArr [])).
Proof.
  intros Hq. cbv zeta. unfold get_suggestions. rewrite Hq.
  destruct (String.length query <? 3)%nat.
  { close_leaf. }
  change (seq 0 max_retries) with [0; 1; 2]%nat.
  rewrite attempts_cons.
  destruct (post 0) as [| r0] eqn:E0.
  { close_leaf. }
  destruct (status_code r0 =? 200) eqn:S0.
  { apply Z.eqb_eq in S0. ok_leaf r0. }
  apply Z.eqb_neq in S0.
  destruct (retryable (status_code r0)) eqn:R0; [| close_leaf].
  cbn [andb Nat.ltb Nat.leb max_retries Nat.sub].
  rewrite attempts_cons, second_delay.
  destruct (post 1) as [| r1] eqn:E1.
  { close_leaf. }
  destruct (status_code r1 =? 200) eqn:S1.
  { apply Z.eqb_eq in S1. ok_leaf r1. }
  apply Z.eqb_neq in S1.
  destruct (retryable (status_code r1)) eqn:R1; [| close_leaf].
  cbn [andb Nat.ltb Nat.leb max_retries Nat.sub].
  rewrite attempts_cons.
  destruct (post 2) as [| r2] eqn:E2.
  { close_leaf. }
  destruct (status_code r2 =? 200) eqn:S2.
  { apply Z.eqb_eq in S2. ok_leaf r2. }
  apply Z.eqb_neq in S2.
  destruct (retryable (status_code r2)) eqn:R2; close_leaf.
Qed.

(** The statuses the loop retries on are 429, 500 and 503, and no other. *)
Lemma retryable_statuses (status : Z) :
  retryable status = true <-> status = 429 \/ status = 500 \/ status = 503.
Proof.
  unfold retryable, retry_statuses. cbn [existsb].
  rewrite !orb_true_iff, !Z.eqb_eq. intuition discriminate.
Qed.

(** A query of three characters or more gets a first attempt. *)
Lemma first_attempt_made (data : json) (query : string) :
  request_query data = Ok query ->
  (3 <= String.length query)%nat ->
  (1 <= posts (fst (get_suggestions loads post data)))%nat.
Proof.
  intros Hq Hl. unfold get_suggestions. rewrite Hq.
  assert (L : (String.length query <? 3)%nat = false) by (apply Nat.ltb_ge; exact Hl).
  rewrite L. change (seq 0 max_retries) with [0; 1; 2]%nat.
  rewrite attempts_cons.
  destruct (post 0) as [| r]; [cbn; lia |].
  destruct (status_code r =? 200).
  - destruct (on_200 loads r) as [tr [v | e]]; cbn; lia.
  - destruct (retryable (status_code r) && _); [| cbn; lia].
    destruct (attempts loads post [1; 2]%nat _) as [tr [v | e]]; cbn; lia.
Qed.

(** C1: for every backend and every well-formed request, the handler
    answers with a JSON response (never an error). It makes at most three
    attempts, and at least one when the query has three characters or
    more; its attempts and waits are an initial part of [full_course]:
    attempt, 1.0 s, attempt, 2.0 s, attempt. An attempt is followed by
    another exactly when it was answered with status 429, 500 or 503 and
    fewer than three attempts have been made; an answer with any other
    status than these and 200 ends the call. When the last attempt was
    answered with a status other than 200 (a status that is not retried,
    or the third retryable one), or raised, the answer is the empty array.
    An attempt answered with status 200 is the last one whatever follows;
    in particular when the text payload fails to parse the answer is the
    empty array and nothing is retried. *)
Theorem retry_policy (data : json) (query : string) :
  request_query data = Ok query ->
  let tr := fst (get_suggestions loads post data) in
  let resp := snd (get_suggestions loads post data) in
  let n := posts tr in
  (exists v, resp = JsonResponse v) /\
  (n <= 3)%nat /\
  ((3 <= String.length query)%nat -> (1 <= n)%nat) /\
  without_prints tr = firstn (2 * n - 1) full_course /\
  (forall k, (S k < n)%nat ->
     exists r, post k = PostReturns r /\
               (status_code r = 429 \/ status_code r = 500 \/ status_code r = 503) /\
               (S k < 3)%nat) /\
  (forall k r, (k < n)%nat -> post k = PostReturns r ->
     status_code r = 429 \/ status_code r = 500 \/ status_code r = 503 ->
     (S k < 3)%nat -> (S k < n)%nat) /\
  (forall k r, (k < n)%nat -> post k = PostReturns r ->
     status_code r <> 200 ->
     ~ (status_code r = 429 \/ status_code r = 500 \/ status_code r = 503) ->
     S k = n) /\
  (forall k r, S k = n -> post k = PostReturns r -> status_code r <> 200 ->
     resp = JsonResponse (JArr [])) /\
  (forall k, S k = n -> post k = PostRaises -> resp = JsonResponse (JArr [])) /\
  (forall k r, (k < n)%nat -> post k = PostReturns r -> status_code r = 200 ->
     S k = n /\
     forall t, payload loads r = Ok (JStr t) -> loads t = Raise JSONDecodeError ->
       resp = JsonResponse (JArr [])).
Proof.
  intros Hq. cbv zeta.
  destruct (retry_course data query Hq) as (A & B & C & D & E & F & G & H).
  split; [exact A |]. split; [exact B |].
  split; [apply first_attempt_made; exact Hq |].
  split; [exact C |].
  split; [| split; [| split; [| split; [exact F | split; [exact G | exact H]]]]].
  - intros k Hk. destruct (D k Hk) as (r & Hp & Hr & Hm).
    exists r. split; [exact Hp |]. split; [apply retryable_statuses, Hr | exact Hm].
  - intros k r Hk Hp Hs Hm. apply (E k r Hk Hp).
    + intros E200. rewrite E200 in Hs. destruct Hs as [Hs | [Hs | Hs]]; discriminate Hs.
    + apply retryable_statuses, Hs.
    + exact Hm.
  - intros k r Hk Hp H200 Hs.
    destruct (Nat.eq_dec (S k) (posts (fst (get_suggestions loads post data))))
      as [Heq | Hne]; [exact Heq | exfalso].
    assert (Hlt : (S k < posts (fst (get_suggestions loads post data)))%nat) by lia.
    destruct (D k Hlt) as (r' & Hp' & Hr & _).
    rewrite Hp in Hp'. injection Hp' as <-.
    apply Hs, retryable_statuses, Hr.
Qed.

Ltac answer_leaf :=
  cbn -[of_decimal retryable];
  repeat match goal with
         | |- _ /\ _ => split
         end;
  [ eexists; reflexivity
  | intros Hn; first [reflexivity | discriminate Hn]
  | intros k r pt pv Hk Hp Hs Ht Hv; attempt_index k; try reflexivity; try congruence
  | intros k r Hk Hp Hs Hf; attempt_index k; try reflexivity; try congruence
  | intros k r Hk Hp Hs; attempt_index k; try reflexivity; try congruence
  | intros k Hk Hp; attempt_index k; try reflexivity; try congruence ].

Ltac ok_answer_leaf r :=
  destruct (on_200_cases r) as [(?t & ?v & ?P & ?L & ->)
                                          | [(?t & ?P & ?L & ->) | (?e & -> & ?N)]];
  answer_leaf;
  first [ match goal with
          | Hf : forall t v, _ -> _ <> _ |- _ => exfalso; eapply Hf; eassumption
          end
        | match goal with
          | N : forall t, _ -> _ /\ _, Ht : payload _ _ = _ |- _ =>
              destruct (N _ Ht); congruence
          end ].

(** C8, amended: the answer to a well-formed request is always a JSON
    value. A query of three characters or more gets at least one attempt.
    When an attempt that was made is answered with status 200 and the text
    payload extracted from it parses as JSON, the answer is exactly the
    parsed value, array or not. On every other path the answer is the
    empty array: no attempt made, a 200 whose payload cannot be extracted
    or parsed, a last attempt answered with another status, a last attempt
    that raised. *)
Theorem suggestions_response (data : json) (query : string) :
  request_query data = Ok query ->
  let tr := fst (get_suggestions loads post data) in
  let resp := snd (get_suggestions loads post data) in
  let n := posts tr in
  ((3 <= String.length query)%nat -> (1 <= n)%nat) /\
  (exists v, resp = JsonResponse v) /\
  (n = 0%nat -> resp = JsonResponse (JArr [])) /\
  (forall k r t v, (k < n)%nat -> post k = PostReturns r -> status_code r = 200 ->
     payload loads r = Ok (JStr t) -> loads t = Ok v ->
     resp = JsonResponse v) /\
  (forall k r, (k < n)%nat -> post k = PostReturns r -> status_code r = 200 ->
     (forall t v, payload loads r = Ok (JStr t) -> loads t <> Ok v) ->
     resp = JsonResponse (JArr [])) /\
  (forall k r, S k = n -> post k = PostReturns r -> status_code r <> 200 ->
     resp = JsonResponse (JArr [])) /\
  (forall k, S k = n -> post k = PostRaises -> resp = JsonResponse (JArr [])).
Proof.
  intros Hq. cbv zeta.
  split; [apply first_attempt_made; exact Hq |].
  unfold get_suggestions. rewrite Hq.
  destruct (String.length query <? 3)%nat.
  { answer_leaf. }
  change (seq 0 max_retries) with [0; 1; 2]%nat.
  rewrite attempts_cons.
  destruct (post 0) as [| r0] eqn:E0.
  { answer_leaf. }
  destruct (status_code r0 =? 200) eqn:S0.
  { apply Z.eqb_eq in S0. ok_answer_leaf r0. }
  apply Z.eqb_neq in S0.
  destruct (retryable (status_code r0)) eqn:R0; [| answer_leaf].
  cbn [andb Nat.ltb Nat.leb max_retries Nat.sub].
  rewrite attempts_cons.
  destruct (post 1) as [| r1] eqn:E1.
  { answer_leaf. }
  destruct (status_code r1 =? 200) eqn:S1.
  { apply Z.eqb_eq in S1. ok_answer_leaf r1. }
  apply Z.eqb_neq in S1.
  destruct (retryable (status_code r1)) eqn:R1; [| answer_leaf].
  cbn [andb Nat.ltb Nat.leb max_retries Nat.sub].
  rewrite attempts_cons.
  destruct (post 2) as [| r2] eqn:E2.
  { answer_leaf. }
  destruct (status_code r2 =? 200) eqn:S2.
  { apply Z.eqb_eq in S2. ok_answer_leaf r2. }
  apply Z.eqb_neq in S2.
  destruct (retryable (status_code r2)) eqn:R2; answer_leaf.
Qed.

(** A query shorter than three characters after trimming is answered with
    the empty array without any call to the backend. *)
Theorem short_query_makes_no_call (data : json) (query : string) :
  request_query data = Ok query ->
  (String.length query < 3)%nat ->
  get_suggestions loads post data = ([], JsonResponse (JArr [])).
Proof.
  intros Hq Hl. unfold get_suggestions. rewrite Hq.
  apply Nat.ltb_lt in Hl. rewrite Hl. reflexivity.
Qed.

End GatewayFacts.

(** The scenarios of the specification, with the decoder of the standard
    library. *)

Lemma retry_policy_witness :
  let data := JObj [("query", JStr "cafe")] in
  let out := Gateway.get_suggestions JsonLoads.loads
               GatewayCases.backend_429_500_200 data in
  let out' := Gateway.get_suggestions JsonLoads.loads GatewayCases.backend_404 data in
  fst out = Gateway.full_course /\
  snd out = Gateway.JsonResponse Gateway.cafe_suggestions /\
  (forall k, (S k < Gateway.posts (fst out))%nat ->
     exists r, GatewayCases.backend_429_500_200 k = Gateway.PostReturns r /\
               (Gateway.status_code r = 429 \/ Gateway.status_code r = 500 \/
                Gateway.status_code r = 503) /\
               (S k < 3)%nat) /\
  fst out' = [Gateway.Post 0; Gateway.Print (Gateway.ApiErrorMsg 404 "Not Found")] /\
  snd out' = Gateway.JsonResponse (JArr []) /\
  (forall k r, (k < Gateway.posts (fst out'))%nat ->
     GatewayCases.backend_404 k = Gateway.PostReturns r ->
     Gateway.status_code r <> 200 ->
     ~ (Gateway.status_code r = 429 \/ Gateway.status_code r = 500 \/
        Gateway.status_code r = 503) ->
     S k = Gateway.posts (fst out')).
Proof.
  cbv zeta.
  pose proof (retry_policy JsonLoads.loads GatewayCases.backend_429_500_200
                (JObj [("query", JStr "cafe")]) "cafe" eq_refl) as H.
  pose proof (retry_policy JsonLoads.loads GatewayCases.backend_404
                (JObj [("query", JStr "cafe")]) "cafe" eq_refl) as H'.
  cbv zeta in H, H'.
  destruct H as (_ & _ & _ & _ & R & _).
  destruct H' as (_ & _ & _ & _ & _ & _ & T & _).
  split; [reflexivity |]. split; [reflexivity |]. split; [exact R |].
  split; [reflexivity |]. split; [reflexivity | exact T].
Defined.

(** C8 as stated fails: the backend answers 200 with a text payload that
    is valid JSON but a single object; the handler passes it on, and the
    answer is not an array. *)
Lemma suggestions_response_not_array :
  let data := JObj [("query", JStr "cafe")] in
  let out := Gateway.get_suggestions JsonLoads.loads Gateway.backend_single_object data in
  Gateway.request_query data = Ok "cafe" /\
  Gateway.payload JsonLoads.loads Gateway.single_object_response
    = Ok (JStr (Gateway.requote "{'name': 'Cafe Uno'}")) /\
  JsonLoads.loads (Gateway.requote "{'name': 'Cafe Uno'}")
    = Ok (JObj [("name", JStr "Cafe Uno")]) /\
  snd out = Gateway.JsonResponse (JObj [("name", JStr "Cafe Uno")]) /\
  (forall items, snd out <> Gateway.JsonResponse (JArr items)).
Proof.
  cbv zeta. repeat split; try reflexivity. intros items. vm_compute. discriminate.
Qed.

Lemma suggestions_response_witness :
  let data := JObj [("query", JStr "cafe")] in
  snd (Gateway.get_suggestions JsonLoads.loads Gateway.backend_503_503_200 data)
  = Gateway.JsonResponse Gateway.cafe_suggestions /\
  snd (Gateway.get_suggestions JsonLoads.loads GatewayCases.backend_404 data)
  = Gateway.JsonResponse (JArr []).
Proof.
  cbv zeta.
  pose proof (suggestions_response JsonLoads.loads Gateway.backend_503_503_200
                (JObj [("query", JStr "cafe")]) "cafe" eq_refl) as H.
  pose proof (suggestions_response JsonLoads.loads GatewayCases.backend_404
                (JObj [("query", JStr "cafe")]) "cafe" eq_refl) as H'.
  cbv zeta in H, H'.
  destruct H as (_ & _ & _ & P & _).
  destruct H' as (_ & _ & _ & _ & _ & F & _).
  split.
  - eapply (P 2%nat Gateway.cafe_response); [cbn; lia | reflexivity ..].
  - eapply (F 0%nat GatewayCases.not_found_response);
      [reflexivity | reflexivity | discriminate].
Defined.

Lemma short_query_makes_no_call_witness :
  Gateway.get_suggestions JsonLoads.loads Gateway.backend_503_503_200
    (JObj [("query", JStr "  ab ")])
  = ([], Gateway.JsonResponse (JArr [])).
Proof.
  apply (short_query_makes_no_call JsonLoads.loads Gateway.backend_503_503_200
           (JObj [("query", JStr "  ab ")]) "ab" eq_refl).
  cbn. lia.
Defined.

(** Status 503 three times: three attempts with waits of 1.0 and 2.0
    seconds, one log line, and the empty array. *)
Theorem exhausted_retries :
  Gateway.get_suggestions JsonLoads.loads Gateway.backend_503
    (JObj [("query", JStr "cafe")])
  = ((Gateway.full_course
      ++ [Gateway.Print (Gateway.ApiErrorMsg 503 "Service Unavailable")])%list,
     Gateway.JsonResponse (JArr [])).
Proof. reflexivity. Qed.

(** Status 200 with a text payload that is not JSON: one attempt, one log
    line, the empty array. *)
Theorem invalid_payload_not_retried :
  Gateway.get_suggestions JsonLoads.loads Gateway.backend_not_json
    (JObj [("query", JStr "cafe")])
  = ([Gateway.Post 0; Gateway.Print (Gateway.ParseErrorMsg "Sorry, no results")],
     Gateway.JsonResponse (JArr [])).
Proof. reflexivity. Qed.

(** ** More on the stores *)

Lemma filter_other_ids {A : Type} (key : A -> string) (id : string) (l : list A) :
  ~ In id (map key l) ->
  filter (fun x => negb (String.eqb (key x) id)) l = l.
Proof.
  induction l as [| a l IH]; [reflexivity |].
  cbn [map filter In]. intros H.
  destruct (String.eqb_spec (key a) id) as [E | _]; [tauto |].
  cbn [negb]. f_equal. apply IH. tauto.
Qed.

Lemma filter_unique_id {A : Type} (key : A -> string) (id : string) (l : list A) :
  NoDup (map key l) -> In id (map key l) ->
  exists l1 a l2,
    l = (l1 ++ a :: l2)%list /\ key a = id /\
    filter (fun x => negb (String.eqb (key x) id)) l = (l1 ++ l2)%list.
Proof.
  induction l as [| a l IH]; [intros _ [] |].
  cbn [map]. intros Hnd Hin. inversion Hnd as [| ? ? Hn Hd]; subst.
  destruct (String.eqb_spec (key a) id) as [E | NE].
  - exists [], a, l. repeat split; [exact E |].
    cbn [filter app]. rewrite <- E at 1. rewrite String.eqb_refl. cbn [negb].
    apply filter_other_ids. rewrite <- E. exact Hn.
  - destruct Hin as [E | Hin]; [contradiction |].
    destruct (IH Hd Hin) as (l1 & b & l2 & -> & Kb & F).
    exists (a :: l1), b, l2. repeat split; [exact Kb |].
    cbn [filter app]. apply String.eqb_neq in NE. rewrite NE. cbn [negb].
    f_equal. exact F.
Qed.

(** In every state reached from the start of the process, deleting an id
    that a task carries removes that one task and nothing else: the tasks
    before and after it keep their order, and the id is gone. *)
Theorem delete_task_removes_one (rs : list request) (id : string) :
  let st := run rs init in
  In id (map task_id (tasks st)) ->
  exists l1 t l2,
    tasks st = (l1 ++ t :: l2)%list /\ task_id t = id /\
    tasks (snd (delete_task id st)) = (l1 ++ l2)%list /\
    ~ In id (map task_id (tasks (snd (delete_task id st)))).
Proof.
  cbv zeta. intros Hin.
  pose proof (run_inv rs init init_inv) as [T _ _ _].
  destruct (filter_unique_id task_id id _ T Hin) as (l1 & t & l2 & E & K & F).
  exists l1, t, l2. cbn [delete_task snd tasks]. rewrite F.
  repeat split; try assumption.
  rewrite E, map_app in T. cbn [map] in T. apply NoDup_remove_2 in T.
  rewrite K in T. rewrite map_app. exact T.
Qed.

Lemma delete_task_removes_one_witness :
  let rs := [AddTask [("task-input", "a")]; AddTask [("task-input", "b")];
             AddTask [("task-input", "c")]] in
  exists l1 t l2,
    tasks (run rs init) = (l1 ++ t :: l2)%list /\ task_id t = "2" /\
    tasks (snd (delete_task "2" (run rs init))) = (l1 ++ l2)%list /\
    ~ In "2" (map task_id (tasks (snd (delete_task "2" (run rs init))))).
Proof.
  apply (delete_task_removes_one
           [AddTask [("task-input", "a")]; AddTask [("task-input", "b")];
            AddTask [("task-input", "c")]] "2").
  cbn. auto.
Defined.

(** In every state reached from the start of the process, [delete_expense]
    leaves the whole state as it was when no expense carries the id, and
    otherwise removes exactly the one expense that carries it, keeping the
    order of the others. *)
Theorem delete_expense_spec (rs : list request) (id : string) :
  let st := run rs init in
  (~ In id (map expense_id (expenses st)) ->
     delete_expense id st = (Redirect "index", st)) /\
  (In id (map expense_id (expenses st)) ->
     exists l1 e l2,
       expenses st = (l1 ++ e :: l2)%list /\ expense_id e = id /\
       expenses (snd (delete_expense id st)) = (l1 ++ l2)%list /\
       ~ In id (map expense_id (expenses (snd (delete_expense id st))))).
Proof.
  cbv zeta. split.
  - intros H. unfold delete_expense. rewrite (filter_other_ids expense_id id _ H).
    destruct (run rs init); reflexivity.
  - intros Hin.
    pose proof (run_inv rs init init_inv) as [_ _ T _].
    destruct (filter_unique_id expense_id id _ T Hin) as (l1 & e & l2 & E & K & F).
    exists l1, e, l2. cbn [delete_expense snd expenses]. rewrite F.
    repeat split; try assumption.
    rewrite E, map_app in T. cbn [map] in T. apply NoDup_remove_2 in T.
    rewrite K in T. rewrite map_app. exact T.
Qed.

(** In every state reached from the start of the process, adding a record
    and then deleting the id it was given gives back the list as it was:
    no older record is lost with it. *)
Theorem add_then_delete_restores (rs : list request) (f : form) :
  let st := run rs init in
  (forall t, new_task f st = Some t ->
     tasks (snd (delete_task (task_id t) (snd (add_task f st)))) = tasks st) /\
  (forall e, new_expense f st = Some e ->
     expenses (snd (delete_expense (expense_id e) (snd (add_expense f st))))
     = expenses st).
Proof.
  cbv zeta. pose proof (run_inv rs init init_inv) as [_ T _ E]. split.
  - intros t N. unfold add_task. rewrite N.
    cbn [snd delete_task tasks filter]. rewrite String.eqb_refl. cbn [negb].
    apply filter_other_ids. rewrite (new_task_id _ _ _ N).
    apply str_not_below, T.
  - intros e N. unfold add_expense. rewrite N.
    cbn [snd delete_expense expenses filter]. rewrite String.eqb_refl. cbn [negb].
    apply filter_other_ids. rewrite (new_expense_id _ _ _ N).
    apply str_not_below, E.
Qed.

Ltac form_cases :=
  repeat match goal with
         | |- context [truthy ?s] => destruct (truthy s)
         | |- context [of_string ?s] => destruct (of_string s)
         | |- context [ge ?x ?y] => destruct (ge x y)
         end.

(** Two requests that work on different stores can be handled in either
    order: the resulting state is the same. *)
Theorem requests_commute (r1 r2 : request) (st : state) :
  store_of r1 <> store_of r2 ->
  run [r1; r2] st = run [r2; r1] st.
Proof.
  intros H. cbn [run].
  destruct r1, r2; cbn [store_of] in H; try congruence; cbn [handle];
    unfold set_budget, add_task, delete_task, add_expense, delete_expense,
      new_task, new_expense;
    form_cases; reflexivity.
Qed.

Lemma requests_commute_witness :
  run [AddTask [("task-input", "a")];
       AddExpense [("expense-description", "x"); ("expense-amount", "2")]] init
  = run [AddExpense [("expense-description", "x"); ("expense-amount", "2")];
         AddTask [("task-input", "a")]] init.
Proof.
  apply (requests_commute (AddTask [("task-input", "a")])
           (AddExpense [("expense-description", "x"); ("expense-amount", "2")]) init).
  discriminate.
Defined.

Lemma issued_task_ids_count (rs : list request) (st : state) :
  issued_task_ids rs st
  = map str (count_from (task_id_counter st) (List.length (issued_task_ids rs st))) /\
  task_id_counter (run rs st)
  = task_id_counter st + Z.of_nat (List.length (issued_task_ids rs st)).
Proof.
  revert st. induction rs as [| r rs IH]; intros st.
  - cbn. split; [reflexivity | lia].
  - cbn [issued_task_ids run]. destruct (IH (snd (handle r st))) as [I C].
    destruct (issued_task_step r st) as [E | [E S1]]; rewrite E; cbn [app].
    + assert (K : task_id_counter (snd (handle r st)) = task_id_counter st).
      { destruct r as [f | f | id | f | id]; cbn [issued_task_id handle] in *.
        - apply set_budget_frame.
        - unfold add_task. cbn [snd]. destruct (new_task f st); [discriminate E | reflexivity].
        - reflexivity.
        - unfold add_expense. cbn [snd]. destruct (new_expense f st); reflexivity.
        - reflexivity. }
      rewrite K in *. split; assumption.
    + rewrite S1 in *. cbn [List.length count_from map]. split.
      * f_equal. exact I.
      * rewrite C. lia.
Qed.

Lemma issued_expense_ids_count (rs : list request) (st : state) :
  issued_expense_ids rs st
  = map str (count_from (expense_id_counter st)
               (List.length (issued_expense_ids rs st))) /\
  expense_id_counter (run rs st)
  = expense_id_counter st + Z.of_nat (List.length (issued_expense_ids rs st)).
Proof.
  revert st. induction rs as [| r rs IH]; intros st.
  - cbn. split; [reflexivity | lia].
  - cbn [issued_expense_ids run]. destruct (IH (snd (handle r st))) as [I C].
    destruct (issued_expense_step r st) as [E | [E S1]]; rewrite E; cbn [app].
    + assert (K : expense_id_counter (snd (handle r st)) = expense_id_counter st).
      { destruct r as [f | f | id | f | id]; cbn [issued_expense_id handle] in *.
        - apply set_budget_frame.
        - unfold add_task. cbn [snd]. destruct (new_task f st); reflexivity.
        - reflexivity.
        - unfold add_expense. cbn [snd].
          destruct (new_expense f st); [discriminate E | reflexivity].
        - reflexivity. }
      rewrite K in *. split; assumption.
    + rewrite S1 in *. cbn [List.length count_from map]. split.
      * f_equal. exact I.
      * rewrite C. lia.
Qed.

(** Along every run from the start of the process the ids handed out are
    the decimal texts of 1, 2, 3, ... in this order, for tasks and for
    expenses separately; each counter is one more than the number of ids
    handed out, and no list holds more records than ids were handed out. *)
Theorem ids_are_consecutive (rs : list request) :
  let n := List.length (issued_task_ids rs init) in
  let m := List.length (issued_expense_ids rs init) in
  issued_task_ids rs init = map str (count_from 1 n) /\
  task_id_counter (run rs init) = 1 + Z.of_nat n /\
  (List.length (tasks (run rs init)) <= n)%nat /\
  issued_expense_ids rs init = map str (count_from 1 m) /\
  expense_id_counter (run rs init) = 1 + Z.of_nat m /\
  (List.length (expenses (run rs init)) <= m)%nat.
Proof.
  cbv zeta.
  destruct (issued_task_ids_count rs init) as [A B].
  destruct (issued_expense_ids_count rs init) as [C D].
  pose proof (run_inv rs init init_inv) as [T _ E _].
  repeat split; try assumption.
  - rewrite <- (length_map task_id).
    apply NoDup_incl_length; [exact T | apply (run_task_ids rs init)].
  - rewrite <- (length_map expense_id).
    apply NoDup_incl_length; [exact E | apply (run_expense_ids rs init)].
Qed.


(** The budget is overwritten, not accumulated: a submission repeated
    changes nothing more, and after a submission that parses to a value
    that is not below zero nothing is left of the budget set before. *)
Theorem set_budget_overwrites (f1 f2 : form) (st : state) :
  snd (set_budget f1 (snd (set_budget f1 st))) = snd (set_budget f1 st) /\
  (forall x,
     of_string (strip (form_get f2 "total-budget-input" "0.00")) = Some x ->
     ge x (of_int 0) = true ->
     snd (set_budget f2 (snd (set_budget f1 st))) = snd (set_budget f2 st)).
Proof.
  split.
  - unfold set_budget. form_cases; reflexivity.
  - intros x Hx Hg. unfold set_budget. rewrite Hx, Hg, of_string_format_2f.
    form_cases; reflexivity.
Qed.

(** ** Stored records and the total spent *)

Lemma lstrip_head (s : string) :
  match lstrip s with
  | EmptyString => True
  | String c _ => is_space c = false
  end.
Proof.
  induction s as [| c s IH]; cbn; [exact I |].
  destruct (is_space c) eqn:E; [exact IH | exact E].
Qed.

Lemma rstrip_idem (s : string) : rstrip (rstrip s) = rstrip s.
Proof.
  induction s as [| c s IH]; [reflexivity |].
  cbn [rstrip]. destruct (rstrip s) as [| d r] eqn:R.
  - destruct (is_space c) eqn:E; cbn [rstrip]; rewrite ?E; reflexivity.
  - cbn [rstrip]. cbn [rstrip] in IH. rewrite IH. reflexivity.
Qed.

Lemma lstrip_rstrip (s : string) :
  match s with
  | EmptyString => True
  | String c _ => is_space c = false
  end ->
  lstrip (rstrip s) = rstrip s.
Proof.
  destruct s as [| c s]; [reflexivity |]. intros E.
  cbn [rstrip]. destruct (rstrip s); rewrite ?E; cbn [lstrip]; rewrite E; reflexivity.
Qed.

(** Trimming twice is trimming once. *)
Lemma strip_idem (s : string) : strip (strip s) = strip s.
Proof.
  unfold strip. rewrite (lstrip_rstrip _ (lstrip_head s)). apply rstrip_idem.
Qed.

(** Rounding keeps the sign. *)
Lemma iter_pos_inv {A : Type} (P : A -> Prop) (f : A -> A) :
  (forall x, P x -> P (f x)) -> forall p x, P x -> P (iter_pos f p x).
Proof.
  intros Hf. induction p as [p IH | p IH |]; intros x Hx; cbn; auto.
Qed.

Lemma shr_1_nonneg (mrs : shr_record) : 0 <= shr_m mrs -> 0 <= shr_m (shr_1 mrs).
Proof.
  destruct mrs as [m r s]. cbn. intros H.
  destruct m as [| [p | p |] | p]; cbn; lia.
Qed.

Lemma shr_fexp_nonneg (m e : Z) (l : SpecFloat.location) :
  0 <= m -> 0 <= shr_m (fst (shr_fexp prec emax m e l)).
Proof.
  intros H. unfold shr_fexp, shr.
  assert (R : 0 <= shr_m (shr_record_of_loc m l))
    by (destruct l as [| []]; exact H).
  destruct (fexp prec emax (Zdigits2 m + e) - e) as [| p | p]; cbn [fst]; try exact R.
  apply (iter_pos_inv (fun mrs => 0 <= shr_m mrs)); [apply shr_1_nonneg | exact R].
Qed.

Lemma binary_round_aux_sign (sx : bool) (mx ex : Z) (lx : SpecFloat.location) :
  0 <= mx ->
  match binary_round_aux prec emax sx mx ex lx with
  | S754_zero s | S754_infinity s | S754_finite s _ _ => s = sx
  | S754_nan => False
  end.
Proof.
  intros H. unfold binary_round_aux.
  pose proof (shr_fexp_nonneg mx ex lx H) as H1.
  destruct (shr_fexp prec emax mx ex lx) as [mrs' e']. cbn [fst] in H1.
  assert (H2 : 0 <= round_nearest_even (shr_m mrs') (loc_of_shr_record mrs')).
  { unfold round_nearest_even.
    destruct (loc_of_shr_record mrs') as [| []]; try lia.
    destruct (Z.even (shr_m mrs')); lia. }
  pose proof (shr_fexp_nonneg _ e' loc_Exact H2) as H3.
  destruct (shr_fexp prec emax _ e' loc_Exact) as [mrs'' e'']. cbn [fst] in H3.
  destruct (shr_m mrs'') as [| m | m]; [reflexivity | | lia].
  destruct (e'' <=? emax - prec); reflexivity.
Qed.

Lemma of_decimal_sign (neg : bool) (m : N) (e : Z) :
  match of_decimal neg m e with
  | S754_zero s | S754_infinity s | S754_finite s _ _ => s = neg
  | S754_nan => False
  end.
Proof.
  unfold of_decimal. destruct m as [| p]; [reflexivity |].
  unfold SFdiv_core_binary.
  set (num := Z.pos p * 10 ^ Z.max e 0).
  set (den := 10 ^ Z.max (- e) 0).
  set (e' := Z.min _ _). set (s := 0 - 0 - e').
  set (m' := match s with Z.pos _ => Z.shiftl num s | Z0 => num | Z.neg _ => 0 end).
  assert (Hn : 0 <= num) by (unfold num; apply Z.mul_nonneg_nonneg; [lia | apply Z.pow_nonneg; lia]).
  assert (Hd : 0 < den) by (unfold den; apply Z.pow_pos_nonneg; lia).
  assert (Hm : 0 <= m').
  { unfold m'. destruct s; [exact Hn | apply Z.shiftl_nonneg; exact Hn | lia]. }
  pose proof (Z.div_pos m' den Hm Hd) as Hq.
  unfold Z.div in Hq. destruct (Z.div_eucl m' den) as [q r].
  apply binary_round_aux_sign, Hq.
Qed.

Lemma round_2_decimals_ge (x : float) :
  ge x (of_int 0) = true -> ge (round_2_decimals x) (of_int 0) = true.
Proof.
  intros H. destruct x as [s | s | | s m e]; try exact H.
  apply ge_zero_cases in H. subst s. cbn [round_2_decimals].
  apply ge_zero_cases.
  pose proof (of_decimal_sign false (Z.to_N (cents m e)) (-2)) as S.
  destruct (of_decimal false (Z.to_N (cents m e)) (-2)); auto.
Qed.

Lemma add_ge (x y : float) :
  ge x (of_int 0) = true -> ge y (of_int 0) = true ->
  ge (add x y) (of_int 0) = true.
Proof.
  intros Hx Hy. apply ge_zero_cases in Hx, Hy. apply ge_zero_cases.
  unfold add, SFadd.
  destruct x as [sx | sx | | sx mx ex], y as [sy | sy | | sy my ey];
    try contradiction; subst; try exact I; try reflexivity.
  - destruct sx, sy; exact I.
  - cbn [cond_Zopp]. unfold binary_normalize.
    set (a := fst (shl_align mx ex (Z.min ex ey))).
    set (b := fst (shl_align my ey (Z.min ex ey))).
    change (Z.pos a + Z.pos b) with (Z.pos (a + b)). cbv iota.
    unfold binary_round.
    destruct (shl_align (a + b) (Z.min ex ey) _) as [mz ez].
    pose proof (binary_round_aux_sign false (Z.pos mz) ez loc_Exact ltac:(lia)) as S.
    destruct (binary_round_aux prec emax false (Z.pos mz) ez loc_Exact); auto.
Qed.

Lemma fold_add_ge (xs : list float) (acc : float) :
  ge acc (of_int 0) = true ->
  Forall (fun x => ge x (of_int 0) = true) xs ->
  ge (fold_left add xs acc) (of_int 0) = true.
Proof.
  intros G H. revert acc G.
  induction H as [| x xs Hx _ IH]; intros acc G; [exact G |].
  cbn [fold_left]. apply IH, add_ge; assumption.
Qed.

Lemma sum_ge (xs : list float) :
  Forall (fun x => ge x (of_int 0) = true) xs -> ge (sum xs) (of_int 0) = true.
Proof. intros H. apply fold_add_ge; [reflexivity | exact H]. Qed.

Lemma new_task_stored (f : form) (st : state) (t : task) :
  new_task f st = Some t -> stored_task t.
Proof.
  unfold new_task. destruct (truthy _) eqn:T; [| discriminate].
  intros [= <-]. repeat split; cbn; [exact T | apply strip_idem ..].
Qed.

Lemma new_expense_wellformed (f : form) (st : state) (e : expense) :
  new_expense f st = Some e -> stored_expense e.
Proof.
  unfold new_expense. destruct (of_string _) as [x |]; [| discriminate].
  destruct (truthy _) eqn:T; [| discriminate]. cbn [andb].
  destruct (ge x (of_int 0)) eqn:G; [| discriminate].
  intros [= <-]. repeat split; cbn; [exact T | apply strip_idem .. |].
  exists (round_2_decimals x). split; [apply of_string_format_2f |].
  apply round_2_decimals_ge, G.
Qed.

Lemma handle_wellformed (r : request) (st : state) :
  Forall stored_task (tasks st) /\ Forall stored_expense (expenses st) ->
  Forall stored_task (tasks (snd (handle r st))) /\
  Forall stored_expense (expenses (snd (handle r st))).
Proof.
  intros [T E]. destruct r as [f | f | id | f | id]; cbn [handle].
  - destruct (set_budget_frame f st) as (-> & _). rewrite set_budget_expenses. auto.
  - unfold add_task. cbn [snd]. destruct (new_task f st) as [t |] eqn:N; [| auto].
    split; [| exact E]. constructor; [eapply new_task_stored, N | exact T].
  - split; [| exact E]. cbn [delete_task snd tasks].
    rewrite Forall_forall in *. intros t Ht. apply filter_In in Ht. apply T, Ht.
  - unfold add_expense. cbn [snd]. destruct (new_expense f st) as [e |] eqn:N; [| auto].
    split; [exact T |]. constructor; [eapply new_expense_wellformed, N | exact E].
  - split; [exact T |]. cbn [delete_expense snd expenses].
    rewrite Forall_forall in *. intros e He. apply filter_In in He. apply E, He.
Qed.

(** After every run from the start of the process, every stored task has
    a text that is not empty, text and location without whitespace at
    either end; every stored expense has a description that is not empty,
    description and category without whitespace at either end, and an
    amount that reads back as a value that is not below zero (so never a
    negative number and never a NaN). *)
Theorem stored_records_wellformed (rs : list request) :
  Forall stored_task (tasks (run rs init)) /\
  Forall stored_expense (expenses (run rs init)).
Proof.
  assert (G : forall st,
             Forall stored_task (tasks st) /\ Forall stored_expense (expenses st) ->
             Forall stored_task (tasks (run rs st)) /\
             Forall stored_expense (expenses (run rs st))).
  { induction rs as [| r rs IH]; intros st H; [exact H |].
    cbn [run]. apply IH, handle_wellformed, H. }
  apply G. split; constructor.
Qed.

Lemma amounts_ge (es : list expense) (xs : list float) :
  Forall stored_amount es -> amounts es = Ok xs ->
  Forall (fun x => ge x (of_int 0) = true) xs.
Proof.
  intros H. revert xs. induction H as [| e es (x & G & Hx) _ IH]; intros xs.
  - intros [= <-]. constructor.
  - cbn [amounts]. rewrite Hx, of_string_format_2f.
    destruct (amounts es) as [ys |]; [| discriminate].
    intros [= <-]. constructor; [apply round_2_decimals_ge, G | apply IH; reflexivity].
Qed.

(** After every run from the start of the process the page is rendered
    and the total spent is not below zero: it is never negative and never
    a NaN. *)
Theorem total_spent_not_negative (rs : list request) :
  exists p, index (run rs init) = Ok p /\
            ge (total_expenses p) (of_int 0) = true.
Proof.
  assert (H : Forall stored_amount (expenses (run rs init)))
    by (apply run_stored; constructor).
  destruct (amounts_stored _ H) as (xs & E & _).
  unfold index. rewrite E. eexists. split; [reflexivity |].
  cbn [total_expenses]. apply sum_ge. eapply amounts_ge; eassumption.
Qed.

(** ** The remaining budget *)







(** ** More on the gateway *)

Section GatewayLog.
Import Gateway GatewayCases.

Variable loads : string -> result json.
Variable post : nat -> post_result.

Ltac known_response :=
  match goal with
  | E : post ?k = PostReturns ?r0, H : post ?k = PostReturns ?r |- _ =>
      rewrite E in H; injection H as <-
  | E : post ?k = PostRaises, H : post ?k = PostReturns ?r |- _ =>
      rewrite E in H; discriminate H
  | E : post ?k = PostReturns ?r0, H : post ?k = PostRaises |- _ =>
      rewrite E in H; discriminate H
  end.

Ltac attempt_index k :=
  destruct k as [| [| [| k]]]; cbn in *; try lia; try known_response.

Ltac log_leaf :=
  cbn -[of_decimal retryable];
  repeat match goal with
         | |- _ /\ _ => split
         end;
  [ lia
  | intros k Hk Hp; attempt_index k; try reflexivity; try congruence
  | intros k r Hk Hp Hs; attempt_index k; try reflexivity; try congruence
  | intros k r pt pv Hk Hp Hs Ht Hv; attempt_index k; try reflexivity; try congruence
  | intros k r Hk Hp Hs Hf; attempt_index k; try reflexivity; try congruence ].

Ltac ok_log_leaf r :=
  destruct (on_200_cases loads r) as [(?t & ?v & ?P & ?L & ->)
                                     | [(?t & ?P & ?L & ->) | (?e & -> & ?N)]];
  log_leaf.

(** A call logs at most one line. It logs exactly one when its last
    attempt raised, was answered with a status other than 200, or was
    answered with status 200 and a payload that could not be extracted or
    parsed; it logs none when the payload parsed. *)
Theorem failures_are_logged_once (data : json) (query : string) :
  request_query data = Ok query ->
  let tr := fst (get_suggestions loads post data) in
  let n := posts tr in
  (prints tr <= 1)%nat /\
  (forall k, S k = n -> post k = PostRaises -> prints tr = 1%nat) /\
  (forall k r, S k = n -> post k = PostReturns r -> status_code r <> 200 ->
     prints tr = 1%nat) /\
  (forall k r t v, S k = n -> post k = PostReturns r -> status_code r = 200 ->
     payload loads r = Ok (JStr t) -> loads t = Ok v -> prints tr = 0%nat) /\
  (forall k r, S k = n -> post k = PostReturns r -> status_code r = 200 ->
     (forall t v, payload loads r = Ok (JStr t) -> loads t <> Ok v) ->
     prints tr = 1%nat).
Proof.
  intros Hq. cbv zeta. unfold get_suggestions. rewrite Hq.
  destruct (String.length query <? 3)%nat.
  { log_leaf. }
  change (seq 0 max_retries) with [0; 1; 2]%nat.
  rewrite attempts_cons.
  destruct (post 0) as [| r0] eqn:E0.
  { log_leaf. }
  destruct (status_code r0 =? 200) eqn:S0.
  { apply Z.eqb_eq in S0. ok_log_leaf r0. all: first [exfalso; eapply Hf; eassumption | destruct (N _ Ht); congruence]. }
  apply Z.eqb_neq in S0.
  destruct (retryable (status_code r0)) eqn:R0; [| log_leaf].
  cbn [andb Nat.ltb Nat.leb max_retries Nat.sub].
  rewrite attempts_cons.
  destruct (post 1) as [| r1] eqn:E1.
  { log_leaf. }
  destruct (status_code r1 =? 200) eqn:S1.
  { apply Z.eqb_eq in S1. ok_log_leaf r1. all: first [exfalso; eapply Hf; eassumption | destruct (N _ Ht); congruence]. }
  apply Z.eqb_neq in S1.
  destruct (retryable (status_code r1)) eqn:R1; [| log_leaf].
  cbn [andb Nat.ltb Nat.leb max_retries Nat.sub].
  rewrite attempts_cons.
  destruct (post 2) as [| r2] eqn:E2.
  { log_leaf. }
  destruct (status_code r2 =? 200) eqn:S2.
  { apply Z.eqb_eq in S2. ok_log_leaf r2. all: first [exfalso; eapply Hf; eassumption | destruct (N _ Ht); congruence]. }
  apply Z.eqb_neq in S2.
  destruct (retryable (status_code r2)) eqn:R2; log_leaf.
Qed.

Ltac raise_leaf :=
  cbn -[of_decimal retryable];
  intros k Hk Hp; attempt_index k; repeat split; reflexivity.

Ltac ok_raise_leaf r :=
  destruct (on_200_cases loads r) as [(?t & ?v & ?P & ?L & ->)
                                     | [(?t & ?P & ?L & ->) | (?e & -> & ?N)]];
  raise_leaf.

(** An attempt that raises (a failed connection, say) is the last one:
    the handler logs the unexpected error and answers the empty array. *)
Theorem exception_not_retried (data : json) (query : string) :
  request_query data = Ok query ->
  let tr := fst (get_suggestions loads post data) in
  let resp := snd (get_suggestions loads post data) in
  forall k, (k < posts tr)%nat -> post k = PostRaises ->
    S k = posts tr /\ resp = JsonResponse (JArr []) /\
    List.last tr (Post 0) = Print UnexpectedErrorMsg.
Proof.
  intros Hq. cbv zeta. unfold get_suggestions. rewrite Hq.
  destruct (String.length query <? 3)%nat.
  { raise_leaf. }
  change (seq 0 max_retries) with [0; 1; 2]%nat.
  rewrite attempts_cons.
  destruct (post 0) as [| r0] eqn:E0.
  { raise_leaf. }
  destruct (status_code r0 =? 200) eqn:S0.
  { ok_raise_leaf r0. }
  destruct (retryable (status_code r0)) eqn:R0; [| raise_leaf].
  cbn [andb Nat.ltb Nat.leb max_retries Nat.sub].
  rewrite attempts_cons.
  destruct (post 1) as [| r1] eqn:E1.
  { raise_leaf. }
  destruct (status_code r1 =? 200) eqn:S1.
  { ok_raise_leaf r1. }
  destruct (retryable (status_code r1)) eqn:R1; [| raise_leaf].
  cbn [andb Nat.ltb Nat.leb max_retries Nat.sub].
  rewrite attempts_cons.
  destruct (post 2) as [| r2] eqn:E2.
  { raise_leaf. }
  destruct (status_code r2 =? 200) eqn:S2.
  { ok_raise_leaf r2. }
  destruct (retryable (status_code r2)) eqn:R2; raise_leaf.
Qed.

(** The first attempt is answered with status 200 and a JSON object. *)
Lemma first_attempt_200 (data : json) (query : string) (r : http_response) :
  request_query data = Ok query ->
  (3 <= String.length query)%nat ->
  post 0 = PostReturns r ->
  status_code r = 200 ->
  get_suggestions loads post data =
  match try_except (Post 0 :: fst (on_200 loads r), snd (on_200 loads r))
          (fun _ => emit (Print UnexpectedErrorMsg) ;;; ret (JArr [])) with
  | (tr, Ok v) => (tr, JsonResponse v)
  | (tr, Raise _) => (tr, InternalServerError)
  end.
Proof.
  intros Hq Hl E0 S0. unfold get_suggestions. rewrite Hq.
  assert (L : (String.length query <? 3)%nat = false) by (apply Nat.ltb_ge; exact Hl).
  rewrite L. change (seq 0 max_retries) with [0; 1; 2]%nat.
  rewrite attempts_cons, E0, S0. reflexivity.
Qed.

(** When the first attempt is answered with status 200 and a JSON object
    without the key [candidates], the extraction falls back on the default
    text [{}], and the handler answers the empty object, not the empty
    array, without a log line. *)
Theorem missing_candidates_answer (data : json) (query : string)
    (r : http_response) (fields : list (string * json)) :
  request_query data = Ok query ->
  (3 <= String.length query)%nat ->
  post 0 = PostReturns r ->
  status_code r = 200 ->
  loads (body r) = Ok (JObj fields) ->
  dict_lookup fields "candidates" = None ->
  loads "{}" = Ok (JObj []) ->
  get_suggestions loads post data = ([Post 0], JsonResponse (JObj [])).
Proof.
  intros Hq Hl E0 S0 Hb Hc He.
  rewrite (first_attempt_200 data query r Hq Hl E0 S0).
  unfold on_200, lift, iobind. rewrite Hb.
  unfold extract_text, py_get. rewrite Hc. cbn. rewrite He. reflexivity.
Qed.

(** When the first attempt is answered with status 200 and an empty list
    of candidates, indexing it raises; the handler logs the unexpected
    error and answers the empty array after this one attempt. *)
Theorem empty_candidates_answer (data : json) (query : string)
    (r : http_response) (fields : list (string * json)) :
  request_query data = Ok query ->
  (3 <= String.length query)%nat ->
  post 0 = PostReturns r ->
  status_code r = 200 ->
  loads (body r) = Ok (JObj fields) ->
  dict_lookup fields "candidates" = Some (JArr []) ->
  get_suggestions loads post data
  = ([Post 0; Print UnexpectedErrorMsg], JsonResponse (JArr [])).
Proof.
  intros Hq Hl E0 S0 Hb Hc.
  rewrite (first_attempt_200 data query r Hq Hl E0 S0).
  unfold on_200, lift, iobind. rewrite Hb.
  unfold extract_text, py_get. rewrite Hc. reflexivity.
Qed.

Lemma retryable_not_200 (status : Z) :
  retryable status = true -> (status =? 200) = false.
Proof.
  unfold retryable, retry_statuses. cbn [existsb]. intros H.
  apply Z.eqb_neq. intros ->. discriminate H.
Qed.

(** Three answers in a row with status 429, 500 or 503: the handler makes
    its three attempts with waits of 1.0 and 2.0 seconds, logs the last
    answer and returns the empty array. *)
Theorem retries_exhausted (data : json) (query : string)
    (r0 r1 r2 : http_response) :
  request_query data = Ok query ->
  (3 <= String.length query)%nat ->
  post 0 = PostReturns r0 -> retryable (status_code r0) = true ->
  post 1 = PostReturns r1 -> retryable (status_code r1) = true ->
  post 2 = PostReturns r2 -> retryable (status_code r2) = true ->
  get_suggestions loads post data
  = ((full_course ++ [Print (ApiErrorMsg (status_code r2) (body r2))])%list,
     JsonResponse (JArr [])).
Proof.
  intros Hq Hl E0 R0 E1 R1 E2 R2. unfold get_suggestions. rewrite Hq.
  assert (L : (String.length query <? 3)%nat = false) by (apply Nat.ltb_ge; exact Hl).
  rewrite L. change (seq 0 max_retries) with [0; 1; 2]%nat.
  rewrite attempts_cons, E0, (retryable_not_200 _ R0), R0.
  cbn [andb Nat.ltb Nat.leb max_retries Nat.sub].
  rewrite attempts_cons, E1, (retryable_not_200 _ R1), R1, second_delay.
  cbn [andb Nat.ltb Nat.leb max_retries Nat.sub].
  rewrite attempts_cons, E2, (retryable_not_200 _ R2), R2.
  reflexivity.
Qed.

(** A first answer with status 200 whose text payload is not JSON: one
    attempt, one log line that shows at most the first 200 characters of
    the payload, and the empty array. *)
Theorem unparsable_payload_answer (data : json) (query : string)
    (r : http_response) (t : string) :
  request_query data = Ok query ->
  (3 <= String.length query)%nat ->
  post 0 = PostReturns r ->
  status_code r = 200 ->
  payload loads r = Ok (JStr t) ->
  loads t = Raise JSONDecodeError ->
  get_suggestions loads post data
  = ([Post 0; Print (ParseErrorMsg (substring 0 200 t))], JsonResponse (JArr [])).
Proof.
  intros Hq Hl E0 S0 P L.
  rewrite (first_attempt_200 data query r Hq Hl E0 S0).
  destruct (on_200_cases loads r) as [(t' & v & P' & L' & ->)
                                     | [(t' & P' & L' & ->) | (e & -> & N)]].
  - congruence.
  - assert (t' = t) by congruence. subst t'. reflexivity.
  - destruct (N _ P) as [L' Ne]. congruence.
Qed.

End GatewayLog.

Lemma retries_exhausted_witness :
  Gateway.get_suggestions JsonLoads.loads Gateway.backend_503
    (JObj [("query", JStr "cafe")])
  = ((Gateway.full_course
      ++ [Gateway.Print (Gateway.ApiErrorMsg 503 "Service Unavailable")])%list,
     Gateway.JsonResponse (JArr [])).
Proof.
  apply (retries_exhausted JsonLoads.loads Gateway.backend_503
           (JObj [("query", JStr "cafe")]) "cafe"
           Gateway.busy_response Gateway.busy_response Gateway.busy_response);
    try reflexivity.
  cbn. lia.
Defined.

Lemma unparsable_payload_answer_witness :
  Gateway.get_suggestions JsonLoads.loads Gateway.backend_not_json
    (JObj [("query", JStr "cafe")])
  = ([Gateway.Post 0; Gateway.Print (Gateway.ParseErrorMsg "Sorry, no results")],
     Gateway.JsonResponse (JArr [])).
Proof.
  apply (unparsable_payload_answer JsonLoads.loads Gateway.backend_not_json
           (JObj [("query", JStr "cafe")]) "cafe"
           (Gateway.mk_response 200
              (Gateway.requote
                 "{'candidates': [{'content': {'parts': [{'text': 'Sorry, no results'}]}}]}"))
           "Sorry, no results");
    try reflexivity.
  cbn. lia.
Defined.


Lemma missing_candidates_answer_witness :
  Gateway.get_suggestions JsonLoads.loads GatewayCases.backend_blocked (JObj [("query", JStr "cafe")])
  = ([Gateway.Post 0], Gateway.JsonResponse (JObj [])).
Proof.
  apply (missing_candidates_answer JsonLoads.loads GatewayCases.backend_blocked
           (JObj [("query", JStr "cafe")]) "cafe" GatewayCases.blocked_response
           [("promptFeedback", JObj [("blockReason", JStr "SAFETY")])]);
    try reflexivity.
  cbn. lia.
Defined.

Lemma empty_candidates_answer_witness :
  Gateway.get_suggestions JsonLoads.loads GatewayCases.backend_no_candidates
    (JObj [("query", JStr "cafe")])
  = ([Gateway.Post 0; Gateway.Print Gateway.UnexpectedErrorMsg], Gateway.JsonResponse (JArr [])).
Proof.
  apply (empty_candidates_answer JsonLoads.loads GatewayCases.backend_no_candidates
           (JObj [("query", JStr "cafe")]) "cafe"
           GatewayCases.no_candidates_response
           [("candidates", JArr [])]);
    try reflexivity.
  cbn. lia.
Defined.

Lemma exception_not_retried_witness :
  let out := Gateway.get_suggestions JsonLoads.loads GatewayCases.backend_down
               (JObj [("query", JStr "cafe")]) in
  Gateway.posts (fst out) = 2%nat /\ snd out = Gateway.JsonResponse (JArr []) /\
  List.last (fst out) (Gateway.Post 0) = Gateway.Print Gateway.UnexpectedErrorMsg.
Proof.
  apply (exception_not_retried JsonLoads.loads GatewayCases.backend_down
           (JObj [("query", JStr "cafe")]) "cafe" eq_refl 1%nat).
  - cbn. lia.
  - reflexivity.
Defined.

Lemma failures_are_logged_once_witness :
  GatewayCases.prints (fst (Gateway.get_suggestions JsonLoads.loads GatewayCases.backend_down
                 (JObj [("query", JStr "cafe")]))) = 1%nat.
Proof.
  apply (proj1 (proj2 (failures_are_logged_once JsonLoads.loads GatewayCases.backend_down
                         (JObj [("query", JStr "cafe")]) "cafe" eq_refl))
           1%nat); reflexivity.
Defined.
